(** * AllThingsClean backend: the Shopify / Lightspeed synchronisation core

    A shallow embedding of the webhook handler
    ([services/shopifyWebhookHandler.js]), of the item handler of the
    Lightspeed handler ([services/lightspeedWebhookHandler.js]), of the
    routes of [server.js] that drive them (the webhook endpoint and the sync
    routes) and of the paginated fetch of the platform client
    ([services/shopify.js]), together with the part of the JavaScript
    semantics these functions rely on.

    Conventions of the embedding:
    - a JavaScript string is the list of its UTF-16 code units;
    - a JavaScript number is [NaN], an infinity, or the exact decimal
      [m * 10^e]; rounding to binary64, overflow and the sign of zero are
      not modelled;
    - a computation that can throw returns a [result];
    - a MongoDB collection is the list of its documents, a document a finite
      map from field names to values; the bookkeeping of the ODM itself
      ([_id], [__v], [createdAt], [updatedAt]) is not part of a document. *)

From Stdlib Require Import ZArith NArith List Decimal.
From Stdlib.Strings Require Import String Ascii Byte.
From stdpp Require Import base option list gmap.

Local Open Scope Z_scope.
Local Set Warnings "-register-all".

(** ** Strings *)

Abbreviation jsstring := (list N) (only parsing).

(** A string literal of the source, as code units (ASCII only). *)
Definition js (s : string) : jsstring :=
  N_of_ascii <$> list_ascii_of_string s.

Fixpoint jsstring_eqb (a b : jsstring) : bool :=
  match a, b with
  | [], [] => true
  | x :: a', y :: b' => (x =? y)%N && jsstring_eqb a' b'
  | _, _ => false
  end.

(** WhiteSpace and LineTerminator code units (ECMAScript StrWhiteSpaceChar). *)
Definition is_whitespace (c : N) : bool :=
  ((9 <=? c) && (c <=? 13) || (c =? 32) || (c =? 160) || (c =? 5760)
   || (8192 <=? c) && (c <=? 8202) || (c =? 8232) || (c =? 8233)
   || (c =? 8239) || (c =? 8287) || (c =? 12288) || (c =? 65279))%N.

Fixpoint trim_start (s : jsstring) : jsstring :=
  match s with
  | c :: s' => if is_whitespace c then trim_start s' else s
  | [] => []
  end.

Definition trim_end (s : jsstring) : jsstring := rev (trim_start (rev s)).

(** [String.prototype.trim]. *)
Definition trim (s : jsstring) : jsstring := trim_end (trim_start s).

Fixpoint starts_with (p s : jsstring) : bool :=
  match p, s with
  | [], _ => true
  | a :: p', b :: s' => (a =? b)%N && starts_with p' s'
  | _ :: _, [] => false
  end.

(** [String.prototype.includes] with a string argument. *)
Fixpoint str_includes (needle s : jsstring) : bool :=
  starts_with needle s ||
  match s with
  | [] => false
  | _ :: s' => str_includes needle s'
  end.

(** [String.prototype.split] with a non-empty separator: [cur] holds the
    code units of the current piece, in reverse. *)
Fixpoint split_go (sep : jsstring) (cur : jsstring) (s : jsstring) (skip : nat)
  : list jsstring :=
  match s with
  | [] => [rev cur]
  | c :: s' =>
      match skip with
      | S k => split_go sep cur s' k
      | O =>
          if starts_with sep s
          then rev cur :: split_go sep [] s' (length sep - 1)
          else split_go sep (c :: cur) s' O
      end
  end.

Definition str_split (sep s : jsstring) : list jsstring := split_go sep [] s O.

(** [Array.prototype.join]. *)
Fixpoint str_join (sep : jsstring) (l : list jsstring) : jsstring :=
  match l with
  | [] => []
  | [x] => x
  | x :: l' => x ++ sep ++ str_join sep l'
  end.

(** ** UTF-8 encoding of a string, as [hmac.update(body, 'utf8')] performs it:
    a surrogate pair is one code point, an unpaired surrogate is encoded as
    U+FFFD. *)

Definition is_lead (c : N) : bool := ((55296 <=? c) && (c <=? 56319))%N.
Definition is_trail (c : N) : bool := ((56320 <=? c) && (c <=? 57343))%N.

Fixpoint code_points (s : jsstring) : list N :=
  match s with
  | [] => []
  | c :: rest =>
      if is_lead c then
        match rest with
        | d :: rest' =>
            if is_trail d
            then (65536 + (c - 55296) * 1024 + (d - 56320))%N :: code_points rest'
            else 65533%N :: code_points rest
        | [] => [65533%N]
        end
      else if is_trail c then 65533%N :: code_points rest
      else c :: code_points rest
  end.

Definition byte_of_N (n : N) : byte :=
  match Byte.of_N n with Some b => b | None => x00 end.

Definition utf8_of_code_point (p : N) : list byte :=
  (if p <? 128 then [byte_of_N p]
   else if p <? 2048 then
     [byte_of_N (192 + p / 64); byte_of_N (128 + p mod 64)]
   else if p <? 65536 then
     [byte_of_N (224 + p / 4096); byte_of_N (128 + (p / 64) mod 64);
      byte_of_N (128 + p mod 64)]
   else
     [byte_of_N (240 + p / 262144); byte_of_N (128 + (p / 4096) mod 64);
      byte_of_N (128 + (p / 64) mod 64); byte_of_N (128 + p mod 64)])%N.

Definition utf8_encode (s : jsstring) : list byte :=
  concat (utf8_of_code_point <$> code_points s).

(** ** UTF-8 decoding of a buffer, as [buffer.toString('utf8')] performs it:
    the decoder of the Encoding Standard, which replaces every ill-formed
    sequence by U+FFFD.  The state of a sequence under way is the code point
    read so far, the number of continuation bytes still needed and the range
    allowed for the next byte. *)

Definition utf8_state : Type := N * nat * N * N.

(** A byte outside a sequence: what it emits, and the sequence it starts. *)
Definition utf8_start (b : N) : list N * option utf8_state :=
  (if b <=? 127 then ([b], None)
   else if (194 <=? b) && (b <=? 223)
   then ([], Some (N.land b 31, 1%nat, 128, 191))
   else if (224 <=? b) && (b <=? 239)
   then ([], Some (N.land b 15, 2%nat,
                   (if b =? 224 then 160 else 128),
                   (if b =? 237 then 159 else 191)))
   else if (240 <=? b) && (b <=? 244)
   then ([], Some (N.land b 7, 3%nat,
                   (if b =? 240 then 144 else 128),
                   (if b =? 244 then 143 else 191)))
   else ([65533], None))%N.

Fixpoint utf8_points (st : option utf8_state) (bs : list N) : list N :=
  match bs with
  | [] => match st with Some _ => [65533%N] | None => [] end
  | b :: rest =>
      match st with
      | None => let (out, st') := utf8_start b in out ++ utf8_points st' rest
      | Some (cp, n, lo, hi) =>
          if ((lo <=? b) && (b <=? hi))%N then
            let cp' := (cp * 64 + N.land b 63)%N in
            match n with
            | S (S n') => utf8_points (Some (cp', S n', 128%N, 191%N)) rest
            | _ => cp' :: utf8_points None rest
            end
          else
            let (out, st') := utf8_start b in
            65533%N :: out ++ utf8_points st' rest
      end
  end.

Definition utf16_of_code_point (p : N) : jsstring :=
  (if p <? 65536 then [p]
   else [55296 + (p - 65536) / 1024; 56320 + (p - 65536) mod 1024])%N.

Definition utf8_decode (bs : list byte) : jsstring :=
  concat (utf16_of_code_point <$> utf8_points None (Byte.to_N <$> bs)).

(** ** Numbers *)

Inductive number :=
| NaN
| Inf (negative : bool)
| Fin (m e : Z).

Global Instance number_eq_dec : EqDecision number.
Proof. solve_decision. Defined.

Definition num_of_nat (n : nat) : number := Fin (Z.of_nat n) 0.

Definition num_is_zero (n : number) : bool :=
  match n with Fin m _ => m =? 0 | _ => false end.

Definition num_is_nan (n : number) : bool :=
  match n with NaN => true | _ => false end.

(** [x < y] on numbers; [None] is the "undefined" of the abstract relational
    comparison (an operand is NaN). *)
Definition num_lt (x y : number) : option bool :=
  match x, y with
  | NaN, _ | _, NaN => None
  | Inf nx, Inf ny => Some (nx && negb ny)
  | Inf nx, Fin _ _ => Some nx
  | Fin _ _, Inf ny => Some (negb ny)
  | Fin m1 e1, Fin m2 e2 =>
      let e := Z.min e1 e2 in
      Some (m1 * 10 ^ (e1 - e) <? m2 * 10 ^ (e2 - e))
  end.

Definition num_neg_sign (n : number) : bool :=
  match n with Fin m _ => m <? 0 | Inf s => s | NaN => false end.

(** [x * y] on numbers. *)
Definition num_mul (x y : number) : number :=
  match x, y with
  | NaN, _ | _, NaN => NaN
  | Fin m1 e1, Fin m2 e2 => Fin (m1 * m2) (e1 + e2)
  | Inf s, o | o, Inf s =>
      if num_is_zero o then NaN else Inf (xorb s (num_neg_sign o))
  end.

(** Decimal digits, as code units. *)
Fixpoint uint_digits (u : Decimal.uint) : jsstring :=
  match u with
  | Nil => []
  | D0 u => 48%N :: uint_digits u
  | D1 u => 49%N :: uint_digits u
  | D2 u => 50%N :: uint_digits u
  | D3 u => 51%N :: uint_digits u
  | D4 u => 52%N :: uint_digits u
  | D5 u => 53%N :: uint_digits u
  | D6 u => 54%N :: uint_digits u
  | D7 u => 55%N :: uint_digits u
  | D8 u => 56%N :: uint_digits u
  | D9 u => 57%N :: uint_digits u
  end.

Definition digits_of_N (n : N) : jsstring := uint_digits (N.to_uint n).

Fixpoint drop_zeros (s : jsstring) : jsstring :=
  match s with
  | c :: s' => if (c =? 48)%N then drop_zeros s' else s
  | [] => []
  end.

(** [Number::toString] (radix 10).  With [s] the significant digits, [k]
    their number and [n] the position of the decimal point, the value is
    [0.s * 10^n]. *)
Definition number_to_string (x : number) : jsstring :=
  match x with
  | NaN => js "NaN"
  | Inf false => js "Infinity"
  | Inf true => js "-Infinity"
  | Fin m e =>
      if m =? 0 then js "0" else
      let all := digits_of_N (Z.to_N (Z.abs m)) in
      let s := rev (drop_zeros (rev all)) in
      let k := Z.of_nat (length s) in
      let n := Z.of_nat (length all) + e in
      let sign := if m <? 0 then js "-" else [] in
      let body :=
        if (k <=? n) && (n <=? 21) then s ++ replicate (Z.to_nat (n - k)) 48%N
        else if (0 <? n) && (n <=? 21) then
          take (Z.to_nat n) s ++ js "." ++ drop (Z.to_nat n) s
        else if (-6 <? n) && (n <=? 0) then
          js "0." ++ replicate (Z.to_nat (- n)) 48%N ++ s
        else
          let x := n - 1 in
          let es := (if x <? 0 then js "-" else js "+")
                    ++ digits_of_N (Z.to_N (Z.abs x)) in
          match s with
          | [d] => [d] ++ js "e" ++ es
          | d :: ds => [d] ++ js "." ++ ds ++ js "e" ++ es
          | [] => []
          end
      in sign ++ body
  end.

(** *** Reading numbers from strings *)

Definition is_digit (c : N) : bool := ((48 <=? c) && (c <=? 57))%N.

Fixpoint span_digits (s : jsstring) : jsstring * jsstring :=
  match s with
  | c :: s' =>
      if is_digit c
      then let (d, r) := span_digits s' in (c :: d, r)
      else ([], s)
  | [] => ([], [])
  end.

(** The value of a digit string in the given radix ([digit_value] maps a
    code unit to its digit). *)
Definition digit_value (c : N) : option N :=
  (if (48 <=? c) && (c <=? 57) then Some (c - 48)
   else if (97 <=? c) && (c <=? 122) then Some (c - 87)
   else if (65 <=? c) && (c <=? 90) then Some (c - 55)
   else None)%N.

Definition is_radix_digit (radix : N) (c : N) : bool :=
  match digit_value c with Some d => (d <? radix)%N | None => false end.

Fixpoint span_radix (radix : N) (s : jsstring) : jsstring * jsstring :=
  match s with
  | c :: s' =>
      if is_radix_digit radix c
      then let (d, r) := span_radix radix s' in (c :: d, r)
      else ([], s)
  | [] => ([], [])
  end.

Definition digits_value (radix : N) (ds : jsstring) : Z :=
  Z.of_N (fold_left (fun acc c => acc * radix + default 0 (digit_value c))%N ds 0%N).

(** An optional sign: the factor and the rest of the input. *)
Definition read_sign (s : jsstring) : Z * jsstring :=
  match s with
  | 43%N :: r => (1, r)
  | 45%N :: r => (-1, r)
  | _ => (1, s)
  end.

(** The exponent part [e[+-]digits], if the input starts with one. *)
Definition read_exponent (s : jsstring) : Z * jsstring :=
  match s with
  | c :: r =>
      if ((c =? 101) || (c =? 69))%N then
        let (sg, r1) := read_sign r in
        let (ds, r2) := span_digits r1 in
        match ds with
        | [] => (0, s)
        | _ => (sg * digits_value 10 ds, r2)
        end
      else (0, s)
  | [] => (0, s)
  end.

(** The longest prefix of the input that is a StrDecimalLiteral: its value
    and the rest of the input. *)
Definition read_decimal (s : jsstring) : option (number * jsstring) :=
  let (sg, r0) := read_sign s in
  if starts_with (js "Infinity") r0
  then Some (Inf (sg <? 0), drop 8 r0)
  else
    let (ip, r1) := span_digits r0 in
    let '(fp, r2, dot) :=
      match r1 with
      | 46%N :: r => let (fp, r') := span_digits r in (fp, r', true)
      | _ => ([], r1, false)
      end in
    match ip, fp with
    | [], [] => None
    | _, _ =>
        let (ex, r3) := read_exponent r2 in
        Some (Fin (sg * digits_value 10 (ip ++ fp)) (ex - Z.of_nat (length fp)), r3)
    end.

(** [parseFloat] on a string. *)
Definition parseFloat_string (s : jsstring) : number :=
  match read_decimal (trim_start s) with
  | Some (n, _) => n
  | None => NaN
  end.

(** [parseInt] on a string, radix absent. *)
Definition parseInt_string (s : jsstring) : number :=
  let (sg, r0) := read_sign (trim_start s) in
  let '(radix, r1) :=
    if starts_with (js "0x") r0 || starts_with (js "0X") r0
    then (16%N, drop 2 r0) else (10%N, r0) in
  let (ds, _) := span_radix radix r1 in
  match ds with
  | [] => NaN
  | _ => Fin (sg * digits_value radix ds) 0
  end.

(** StringToNumber: the whole string, trimmed, must be a numeric literal;
    the empty string is 0. *)
Definition radix_literal (radix : N) (ds : jsstring) : number :=
  match ds with
  | [] => NaN
  | _ => if forallb (is_radix_digit radix) ds
         then Fin (digits_value radix ds) 0 else NaN
  end.

Definition string_to_number (s : jsstring) : number :=
  let t := trim s in
  match t with
  | [] => Fin 0 0
  | _ =>
      if starts_with (js "0x") t || starts_with (js "0X") t
      then radix_literal 16 (drop 2 t)
      else if starts_with (js "0o") t || starts_with (js "0O") t
      then radix_literal 8 (drop 2 t)
      else if starts_with (js "0b") t || starts_with (js "0B") t
      then radix_literal 2 (drop 2 t)
      else match read_decimal t with
           | Some (n, []) => n
           | _ => NaN
           end
  end.

(** ** Exceptions *)

Inductive exn :=
| TypeError      (* a property read of undefined/null, a call of a non-function,
                    a conversion of an object to a primitive that fails *)
| SyntaxError    (* JSON.parse *)
| StoreError     (* raised by the ODM or the database *)
| RequestError.  (* raised by the platform client *)

Inductive result (A : Type) :=
| Ok (a : A)
| Throw (e : exn).
Arguments Ok {A} a.
Arguments Throw {A} e.

Global Instance result_ret : MRet result := fun A a => Ok a.
Global Instance result_bind : MBind result := fun A B f m =>
  match m with Ok a => f a | Throw e => Throw e end.
Global Instance result_fmap : FMap result := fun A B f m =>
  match m with Ok a => Ok (f a) | Throw e => Throw e end.

(** ** Values: what [JSON.parse] produces, and [undefined] *)

Inductive value :=
| VUndefined
| VNull
| VBool (b : bool)
| VNum (n : number)
| VStr (s : jsstring)
| VArr (l : list value)
| VObj (o : list (jsstring * value)).

Fixpoint assoc {A} (k : jsstring) (o : list (jsstring * A)) : option A :=
  match o with
  | [] => None
  | (k', v) :: o' => if jsstring_eqb k k' then Some v else assoc k o'
  end.

(** A field of a translated record. *)
Definition field {A} (k : string) (o : list (jsstring * A)) : option A :=
  assoc (js k) o.

Definition has_own {A} (k : jsstring) (o : list (jsstring * A)) : bool :=
  match assoc k o with Some _ => true | None => false end.

(** ToBoolean. *)
Definition truthy (v : value) : bool :=
  match v with
  | VUndefined | VNull => false
  | VBool b => b
  | VNum n => negb (num_is_zero n || num_is_nan n)
  | VStr s => match s with [] => false | _ => true end
  | VArr _ | VObj _ => true
  end.

(** [a || b], both operands already evaluated. *)
Definition js_or (a b : value) : value := if truthy a then a else b.

(** [a || b] where evaluating [b] may throw. *)
Definition or_else (a : value) (b : result value) : result value :=
  if truthy a then Ok a else b.

Definition nullish (v : value) : bool :=
  match v with VUndefined | VNull => true | _ => false end.

(** [v.k] for a data property [k] named by an identifier of the source.
    None of the names the handlers read is an index, ["length"] or a member
    of [Object.prototype], [Array.prototype], [String.prototype],
    [Number.prototype] or [Boolean.prototype], so the read is decided by the
    own properties: only objects have any. *)
Definition get (v : value) (k : jsstring) : result value :=
  match v with
  | VUndefined | VNull => Throw TypeError
  | VObj o => Ok (default VUndefined (assoc k o))
  | _ => Ok VUndefined
  end.

(** [v[i]] for a literal index [i]. *)
Definition get_index (v : value) (i : nat) : result value :=
  match v with
  | VUndefined | VNull => Throw TypeError
  | VArr l => Ok (default VUndefined (l !! i))
  | VStr s => Ok (match s !! i with Some c => VStr [c] | None => VUndefined end)
  | VObj o => Ok (default VUndefined (assoc (digits_of_N (N.of_nat i)) o))
  | _ => Ok VUndefined
  end.

(** Optional chaining [v?.rest]: [undefined] when [v] is nullish. *)
Definition opt (v : value) (rest : value -> result value) : result value :=
  if nullish v then Ok VUndefined else rest v.

Definition bool_to_string (b : bool) : jsstring :=
  if b then js "true" else js "false".

(** ToString.  An array is joined with commas (nullish elements give the
    empty string).  A parsed object is not callable, so an object with an own
    property [toString] cannot be converted: [valueOf], own or inherited,
    does not yield a primitive either. *)
Fixpoint to_string (v : value) : result jsstring :=
  match v with
  | VUndefined => Ok (js "undefined")
  | VNull => Ok (js "null")
  | VBool b => Ok (bool_to_string b)
  | VNum n => Ok (number_to_string n)
  | VStr s => Ok s
  | VArr l =>
      parts ← (fix go (l : list value) : result (list jsstring) :=
                 match l with
                 | [] => Ok []
                 | x :: l' =>
                     s ← (if nullish x then Ok [] else to_string x);
                     r ← go l';
                     Ok (s :: r)
                 end) l;
      Ok (str_join (js ",") parts)
  | VObj o =>
      if has_own (js "toString") o then Throw TypeError
      else Ok (js "[object Object]")
  end.

(** The method call [v.toString()]. *)
Definition call_toString (v : value) : result jsstring :=
  if nullish v then Throw TypeError else to_string v.

(** ToPrimitive (hint number); on parsed values it ends in [toString] for
    arrays and objects. *)
Definition to_primitive (v : value) : result value :=
  match v with
  | VArr _ | VObj _ => VStr <$> to_string v
  | _ => Ok v
  end.

(** ToNumber on a primitive. *)
Definition prim_to_number (v : value) : number :=
  match v with
  | VUndefined => NaN
  | VNull => Fin 0 0
  | VBool b => if b then Fin 1 0 else Fin 0 0
  | VNum n => n
  | VStr s => string_to_number s
  | VArr _ | VObj _ => NaN
  end.

Definition to_number (v : value) : result number :=
  p ← to_primitive v; Ok (prim_to_number p).

Fixpoint str_lt (a b : jsstring) : bool :=
  match a, b with
  | _, [] => false
  | [], _ :: _ => true
  | x :: a', y :: b' => (x <? y)%N || ((x =? y)%N && str_lt a' b')
  end.

(** [a > b]: the comparison [b < a], operands converted left to right. *)
Definition js_gt (a b : value) : result bool :=
  pa ← to_primitive a;
  pb ← to_primitive b;
  match pa, pb with
  | VStr x, VStr y => Ok (str_lt y x)
  | _, _ => Ok (default false (num_lt (prim_to_number pb) (prim_to_number pa)))
  end.

(** [a * b]. *)
Definition js_mul (a b : value) : result number :=
  na ← to_number a; nb ← to_number b; Ok (num_mul na nb).

(** The globals [parseFloat] and [parseInt] (radix absent). *)
Definition parseFloat (v : value) : result number :=
  s ← to_string v; Ok (parseFloat_string s).

Definition parseInt (v : value) : result number :=
  s ← to_string v; Ok (parseInt_string s).

(** [a.map(f)]: only an array has a callable [map]. *)
Definition array_map (f : value -> result value) (a : value) : result value :=
  match a with
  | VArr l => VArr <$> mapM f l
  | _ => Throw TypeError
  end.

(** [a.split(sep)]: only a string has a callable [split]. *)
Definition call_split (a : value) (sep : jsstring) : result value :=
  match a with
  | VStr s => Ok (VArr (VStr <$> str_split sep s))
  | _ => Throw TypeError
  end.

(** [a.includes(x)] for a string [x]: a substring test on a string, a
    membership test on an array. *)
Definition call_includes (a : value) (x : jsstring) : result value :=
  match a with
  | VStr s => Ok (VBool (str_includes x s))
  | VArr l =>
      Ok (VBool (existsb (fun v => match v with
                                   | VStr s => jsstring_eqb s x
                                   | _ => false
                                   end) l))
  | _ => Throw TypeError
  end.

(** A template literal: the conversion of its substitutions, in order. *)
Fixpoint template (parts : list (jsstring + value)) : result jsstring :=
  match parts with
  | [] => Ok []
  | inl s :: r => t ← template r; Ok (s ++ t)
  | inr v :: r => s ← to_string v; t ← template r; Ok (s ++ t)
  end.

(** ** Base64, as [digest('base64')] produces it *)

Definition base64_char (n : N) : N :=
  (if n <? 26 then 65 + n
   else if n <? 52 then 97 + (n - 26)
   else if n <? 62 then 48 + (n - 52)
   else if n =? 62 then 43 else 47)%N.

Fixpoint base64_encode (bs : list byte) : jsstring :=
  match bs with
  | [] => []
  | [a] =>
      let a := Byte.to_N a in
      [base64_char (a / 4); base64_char ((a mod 4) * 16); 61; 61]%N
  | [a; b] =>
      let a := Byte.to_N a in let b := Byte.to_N b in
      [base64_char (a / 4); base64_char ((a mod 4) * 16 + b / 16);
       base64_char ((b mod 16) * 4); 61]%N
  | a :: b :: c :: rest =>
      let a := Byte.to_N a in let b := Byte.to_N b in let c := Byte.to_N c in
      [base64_char (a / 4); base64_char ((a mod 4) * 16 + b / 16);
       base64_char ((b mod 16) * 4 + c / 64); base64_char (c mod 64)]%N
      ++ base64_encode rest
  end.

(** ** Documents and collections *)

(** A stored field holds a value or a [Date] (milliseconds since the epoch). *)
Inductive fieldv :=
| FVal (v : value)
| FDate (t : Z).

Coercion FVal : value >-> fieldv.

(** An update or a translated record: the object literal, in source order. *)
Abbreviation record := (list (jsstring * fieldv)) (only parsing).
Abbreviation doc := (gmap (list N) fieldv) (only parsing).
Abbreviation collection := (list (gmap (list N) fieldv)) (only parsing).

(** The filters of the handlers are all of the form [{ key: string }]. *)
Record filter := { fkey : jsstring; fval : jsstring }.

Definition matches (f : filter) (d : doc) : bool :=
  match d !! fkey f with
  | Some (FVal (VStr s)) => jsstring_eqb s (fval f)
  | _ => false
  end.

(** [$set]: every field of the update is written, the others are kept. *)
Definition set_fields (u : record) (d : doc) : doc :=
  foldl (fun d kv => <[kv.1 := kv.2]> d) d u.

(** The first document that matches the filter is updated: the new
    collection and the updated document. *)
Fixpoint update_first (f : filter) (u : record) (c : collection)
  : option (collection * doc) :=
  match c with
  | [] => None
  | d :: c' =>
      if matches f d then Some (set_fields u d :: c', set_fields u d)
      else (fun r => (d :: r.1, r.2)) <$> update_first f u c'
  end.

Fixpoint delete_first (f : filter) (c : collection) : collection :=
  match c with
  | [] => []
  | d :: c' => if matches f d then c' else d :: delete_first f c'
  end.

(** [Model.findOne(filter)]. *)
Fixpoint findOne (f : filter) (c : collection) : option doc :=
  match c with
  | [] => None
  | d :: c' => if matches f d then Some d else findOne f c'
  end.

Record db := {
  products : collection;
  customers : collection;
  orders : collection
}.

Definition with_products (s : db) (c : collection) : db :=
  {| products := c; customers := customers s; orders := orders s |}.
Definition with_customers (s : db) (c : collection) : db :=
  {| products := products s; customers := c; orders := orders s |}.
Definition with_orders (s : db) (c : collection) : db :=
  {| products := products s; customers := customers s; orders := c |}.

(** The filter [{ shopifyId: key }]. *)
Definition by_shopifyId (key : jsstring) : filter :=
  {| fkey := js "shopifyId"; fval := key |}.

(** ** The translators (pure) *)

Definition placeholder : jsstring := js "https://via.placeholder.com/400".
Definition zero : value := VNum (Fin 0 0).

(** [product.variants?.[0] || {}]. *)
Definition main_variant (product : value) : result value :=
  variants ← get product (js "variants");
  v0 ← opt variants (fun a => get_index a 0);
  Ok (js_or v0 (VObj [])).

(** [convertShopifyProduct(product)], services/shopifyWebhookHandler.js. *)
Definition convertShopifyProduct (product : value) : result record :=
  (* const mainVariant = product.variants?.[0] || {}; *)
  mainVariant ← main_variant product;
  (* const mainImage = product.images?.[0]?.src || product.image?.src || '...'; *)
  images ← get product (js "images");
  src0 ← opt images (fun a =>
            i0 ← get_index a 0; opt i0 (fun i => get i (js "src")));
  mainImage ← or_else src0
     (image ← get product (js "image");
      src1 ← opt image (fun i => get i (js "src"));
      Ok (js_or src1 (VStr placeholder)));
  (* const images = product.images?.map(img => img.src) || []; *)
  mapped ← opt images (array_map (fun img => get img (js "src")));
  let all_images := js_or mapped (VArr []) in
  id ← get product (js "id");
  shopifyId ← call_toString id;
  title ← get product (js "title");
  vendor ← get product (js "vendor");
  product_type ← get product (js "product_type");
  price0 ← get mainVariant (js "price");
  price ← parseFloat (js_or price0 zero);
  compare0 ← get mainVariant (js "compare_at_price");
  compareAtPrice ← parseFloat (js_or compare0 zero);
  body_html ← get product (js "body_html");
  quantity ← get mainVariant (js "inventory_quantity");
  inStock ← js_gt quantity zero;
  sku ← get mainVariant (js "sku");
  barcode ← get mainVariant (js "barcode");
  tags ← get product (js "tags");
  tag_list ← (if truthy tags then call_split tags (js ", ") else Ok (VArr []));
  variants ← get product (js "variants");
  variant_list ← opt variants (array_map (fun v =>
      vid ← get v (js "id");
      vtitle ← get v (js "title");
      vprice0 ← get v (js "price");
      vprice ← parseFloat vprice0;
      vsku ← get v (js "sku");
      vqty ← get v (js "inventory_quantity");
      Ok (VObj [(js "id", vid); (js "title", vtitle); (js "price", VNum vprice);
                (js "sku", vsku); (js "inventoryQuantity", vqty)])));
  isNew ← opt tags (fun t => call_includes t (js "new"));
  isFeatured ← opt tags (fun t => call_includes t (js "featured"));
  created_at ← get product (js "created_at");
  updated_at ← get product (js "updated_at");
  Ok [(js "shopifyId", FVal (VStr shopifyId));
      (js "name", FVal title);
      (js "brand", FVal (js_or vendor (VStr (js "Unknown"))));
      (js "category", FVal (js_or product_type (VStr (js "Uncategorized"))));
      (js "price", FVal (VNum price));
      (js "compareAtPrice", FVal (VNum compareAtPrice));
      (js "description", FVal (js_or body_html (VStr [])));
      (js "imageUrl", FVal mainImage);
      (js "images", FVal all_images);
      (js "inStock", FVal (VBool inStock));
      (js "stockQuantity", FVal (js_or quantity zero));
      (js "sku", FVal sku);
      (js "barcode", FVal barcode);
      (js "tags", FVal tag_list);
      (js "variants", FVal (js_or variant_list (VArr [])));
      (js "isNew", FVal (js_or isNew (VBool false)));
      (js "isFeatured", FVal (js_or isFeatured (VBool false)));
      (js "dateAdded", FVal created_at);
      (js "lastUpdated", FVal updated_at)].

(** [convertShopifyCustomer(customer)]. *)
Definition convertShopifyCustomer (customer : value) : result record :=
  address0 ← get customer (js "default_address");
  let defaultAddress := js_or address0 (VObj []) in
  id ← get customer (js "id");
  shopifyId ← call_toString id;
  first_name ← get customer (js "first_name");
  last_name ← get customer (js "last_name");
  email ← get customer (js "email");
  phone ← get customer (js "phone");
  orders_count ← get customer (js "orders_count");
  total_spent ← get customer (js "total_spent");
  totalSpent ← parseFloat (js_or total_spent zero);
  address1 ← get defaultAddress (js "address1");
  address2 ← get defaultAddress (js "address2");
  city ← get defaultAddress (js "city");
  province ← get defaultAddress (js "province");
  country ← get defaultAddress (js "country");
  zip ← get defaultAddress (js "zip");
  tags ← get customer (js "tags");
  tag_list ← (if truthy tags then call_split tags (js ", ") else Ok (VArr []));
  created_at ← get customer (js "created_at");
  updated_at ← get customer (js "updated_at");
  Ok [(js "shopifyId", FVal (VStr shopifyId));
      (js "firstName", FVal first_name);
      (js "lastName", FVal last_name);
      (js "email", FVal email);
      (js "phone", FVal phone);
      (js "ordersCount", FVal (js_or orders_count zero));
      (js "totalSpent", FVal (VNum totalSpent));
      (js "address", FVal (VObj [(js "address1", address1); (js "address2", address2);
                                 (js "city", city); (js "province", province);
                                 (js "country", country); (js "zip", zip)]));
      (js "tags", FVal tag_list);
      (js "dateAdded", FVal created_at);
      (js "lastUpdated", FVal updated_at)].

(** [x?.toString()]. *)
Definition opt_toString (x : value) : result value :=
  opt x (fun i => VStr <$> call_toString i).

(** [convertShopifyOrder(order)]; [now] is the reading of [new Date()]. *)
Definition convertShopifyOrder (now : Z) (order : value) : result record :=
  id ← get order (js "id");
  shopifyId ← call_toString id;
  order_number ← get order (js "order_number");
  customer ← get order (js "customer");
  cid ← opt customer (fun c => get c (js "id"));
  customerId ← opt_toString cid;
  first0 ← opt customer (fun c => get c (js "first_name"));
  last0 ← opt customer (fun c => get c (js "last_name"));
  full ← template [inr (js_or first0 (VStr [])); inl (js " ");
                   inr (js_or last0 (VStr []))];
  email ← get order (js "email");
  line_items ← get order (js "line_items");
  items ← opt line_items (array_map (fun item =>
      product_id ← get item (js "product_id");
      productId ← opt_toString product_id;
      variant_id ← get item (js "variant_id");
      variantId ← opt_toString variant_id;
      name ← get item (js "name");
      quantity ← get item (js "quantity");
      price0 ← get item (js "price");
      price ← parseFloat price0;
      price' ← parseFloat price0;
      total ← js_mul (VNum price') quantity;
      sku ← get item (js "sku");
      Ok (VObj [(js "productId", productId); (js "variantId", variantId);
                (js "name", name); (js "quantity", quantity);
                (js "price", VNum price); (js "total", VNum total);
                (js "sku", sku)])));
  subtotal_price ← get order (js "subtotal_price");
  subtotal ← parseFloat (js_or subtotal_price zero);
  total_tax ← get order (js "total_tax");
  tax ← parseFloat (js_or total_tax zero);
  price_set ← get order (js "total_shipping_price_set");
  amount ← opt price_set (fun p =>
              m ← get p (js "shop_money"); opt m (fun m => get m (js "amount")));
  shipping ← parseFloat (js_or amount zero);
  total_price ← get order (js "total_price");
  total ← parseFloat (js_or total_price zero);
  currency ← get order (js "currency");
  financial_status ← get order (js "financial_status");
  fulfillment_status ← get order (js "fulfillment_status");
  shipping_address ← get order (js "shipping_address");
  billing_address ← get order (js "billing_address");
  created_at ← get order (js "created_at");
  updated_at ← get order (js "updated_at");
  Ok [(js "shopifyId", FVal (VStr shopifyId));
      (js "orderNumber", FVal order_number);
      (js "customerId", FVal customerId);
      (js "customerName", FVal (VStr (trim full)));
      (js "customerEmail", FVal email);
      (js "items", FVal (js_or items (VArr [])));
      (js "subtotal", FVal (VNum subtotal));
      (js "tax", FVal (VNum tax));
      (js "shipping", FVal (VNum shipping));
      (js "total", FVal (VNum total));
      (js "currency", FVal currency);
      (js "status", FVal financial_status);
      (js "fulfillmentStatus", FVal fulfillment_status);
      (js "shippingAddress", FVal shipping_address);
      (js "billingAddress", FVal billing_address);
      (js "dateCreated", FVal created_at);
      (js "dateUpdated", FVal updated_at);
      (js "lastUpdated", FDate now)].

(** [convertItemToProduct(item)], services/lightspeedWebhookHandler.js. *)
Definition first_of (item : value) (outer inner leaf : jsstring) : result value :=
  (* item.outer?.inner?.[0]?.leaf *)
  a ← get item outer;
  opt a (fun a =>
    b ← get a inner;
    opt b (fun b =>
      c ← get_index b 0;
      opt c (fun c => get c leaf))).

Definition convertItemToProduct (now : Z) (item : value) : result record :=
  itemID ← get item (js "itemID");
  description ← get item (js "description");
  name ← or_else description (get item (js "customSku"));
  manufacturer ← get item (js "Manufacturer");
  brand ← opt manufacturer (fun m => get m (js "name"));
  category0 ← get item (js "Category");
  category ← opt category0 (fun c => get c (js "name"));
  amount ← first_of item (js "Prices") (js "ItemPrice") (js "amount");
  price ← parseFloat (js_or amount zero);
  longDescription ← get item (js "longDescription");
  description' ← or_else longDescription
     (d ← get item (js "description"); Ok (js_or d (VStr [])));
  imageUrl ← first_of item (js "Images") (js "Image") (js "baseImageURL");
  images0 ← get item (js "Images");
  images ← opt images0 (fun i =>
      l ← get i (js "Image");
      opt l (array_map (fun img => get img (js "baseImageURL"))));
  qoh ← first_of item (js "ItemShops") (js "ItemShop") (js "qoh");
  stock ← parseInt (js_or qoh zero);
  inStock ← js_gt (VNum stock) zero;
  qoh' ← first_of item (js "ItemShops") (js "ItemShop") (js "qoh");
  stockQuantity ← parseInt (js_or qoh' zero);
  customSku ← get item (js "customSku");
  createTime ← get item (js "createTime");
  timeStamp ← get item (js "timeStamp");
  Ok [(js "lightspeedId", FVal itemID);
      (js "name", FVal name);
      (js "brand", FVal (js_or brand (VStr (js "Unknown"))));
      (js "category", FVal (js_or category (VStr (js "Uncategorized"))));
      (js "price", FVal (VNum price));
      (js "description", FVal description');
      (js "imageUrl", FVal (js_or imageUrl (VStr placeholder)));
      (js "images", FVal (js_or images (VArr [])));
      (js "inStock", FVal (VBool inStock));
      (js "stockQuantity", FVal (VNum stockQuantity));
      (js "sku", FVal customSku);
      (js "dateAdded", FVal createTime);
      (js "lastUpdated", if truthy timeStamp then FVal timeStamp else FDate now)].

(** [x.id.toString()], the external identifier of a payload. *)
Definition external_id (x : value) : result jsstring :=
  id ← get x (js "id"); call_toString id.

(** The two writers of the product collection. *)
Inductive writer :=
| Shopify (product : value)
| Lightspeed (now : Z) (itemId : jsstring).

(** ** Requests, responses, environment *)

(** [process.env]: the two variables [verifyWebhook] reads. *)
Record env := {
  SHOPIFY_WEBHOOK_SECRET : option jsstring;
  SHOPIFY_API_SECRET : option jsstring
}.

(** The request as the webhook route sees it: the three headers (absent
    headers read as [undefined]) and the raw body, the [Buffer] that the
    [express.raw] middleware of the route provides.  (The route is modelled
    as it is written, on a raw body; a body parser installed before the
    route that had already consumed the request would leave its parsed
    object in [req.body] instead.) *)
Record request := {
  x_shopify_hmac_sha256 : option jsstring;
  x_shopify_topic : option jsstring;
  x_shopify_shop_domain : option jsstring;
  body : list byte
}.

(** A response body: a JSON value, or [{ success: false, error: e.message }]
    for a caught exception [e]. *)
Inductive payload :=
| Json (v : value)
| Failure (e : exn).

Record response := { status : Z; sent : payload }.

Definition invalid_signature : response :=
  {| status := 401;
     sent := Json (VObj [(js "error", VStr (js "Invalid signature"))]) |}.

Definition acknowledged : response :=
  {| status := 200; sent := Json (VObj [(js "success", VBool true)]) |}.

Definition server_error (e : exn) : response :=
  {| status := 500; sent := Failure e |}.

(** ** The handlers *)

Section Backend.

(** The ODM or the database rejects an update (a cast error on one of its
    fields, a lost connection): the awaited call throws and nothing is
    written. *)
Variable store_rejects : record -> bool.

(** [crypto.createHmac('sha256', key).update(data).digest()]. *)
Variable hmac_sha256 : list byte -> list byte -> list byte.

(** [JSON.parse]. *)
Variable JSON_parse : jsstring -> result value.

(** [lightspeedService.getItemById(itemId)], by its outcome. *)
Variable getItemById : jsstring -> result value.

(** [Model.findOneAndUpdate(filter, update, { upsert })].  An update
    without operators is a [$set] of its fields; with [upsert], when no
    document matches, one is inserted with the field of the filter and the
    fields of the update.  The result is the new collection and the
    document written (what the call resolves to under [new: true]). *)
Definition findOneAndUpdate (f : filter) (u : record) (upsert : bool)
    (c : collection) : result (collection * option doc) :=
  if store_rejects u then Throw StoreError else
  match update_first f u c with
  | Some (c', d) => Ok (c', Some d)
  | None =>
      if upsert
      then let d := set_fields u {[ fkey f := FVal (VStr (fval f)) ]} in
           Ok (c ++ [d], Some d)
      else Ok (c, None)
  end.

(** [Model.findOneAndDelete(filter)]. *)
Definition findOneAndDelete (f : filter) (c : collection) : result collection :=
  Ok (delete_first f c).

(** The template [`... ${x.id} ...`] of the log lines: it reads [x.id] and
    converts it to a string. *)
Definition log_id (x : value) : result unit :=
  id ← get x (js "id"); _ ← to_string id; Ok tt.

(** The body of the [try] of [handleProductUpdate]: translate, then upsert
    by [shopifyId]. *)
Definition upsertProduct (shopifyProduct : value) (s : db)
  : result (db * option doc) :=
  productData ← convertShopifyProduct shopifyProduct;
  key ← external_id shopifyProduct;
  r ← findOneAndUpdate (by_shopifyId key) productData true (products s);
  Ok (with_products s r.1, r.2).

(** [handleProductUpdate(shopifyProduct)].  The log lines after the first
    repeat its template, which has then already been evaluated without
    throwing; the [catch] rethrows. *)
Definition handleProductUpdate (shopifyProduct : value) (s : db) : result db :=
  _ ← log_id shopifyProduct;
  r ← upsertProduct shopifyProduct s;
  Ok r.1.

(** [handleProductDelete(data)]. *)
Definition handleProductDelete (data : value) (s : db) : result db :=
  productId ← get data (js "id");
  _ ← to_string productId;
  key ← call_toString productId;
  c ← findOneAndDelete (by_shopifyId key) (products s);
  Ok (with_products s c).

(** [handleCustomerUpdate(shopifyCustomer)]. *)
Definition handleCustomerUpdate (shopifyCustomer : value) (s : db) : result db :=
  _ ← log_id shopifyCustomer;
  customerData ← convertShopifyCustomer shopifyCustomer;
  key ← external_id shopifyCustomer;
  r ← findOneAndUpdate (by_shopifyId key) customerData true (customers s);
  Ok (with_customers s r.1).

(** [handleCustomerDelete(data)]. *)
Definition handleCustomerDelete (data : value) (s : db) : result db :=
  customerId ← get data (js "id");
  _ ← to_string customerId;
  key ← call_toString customerId;
  c ← findOneAndDelete (by_shopifyId key) (customers s);
  Ok (with_customers s c).

(** [handleOrderUpdate(shopifyOrder)]. *)
Definition handleOrderUpdate (now : Z) (shopifyOrder : value) (s : db) : result db :=
  _ ← log_id shopifyOrder;
  orderData ← convertShopifyOrder now shopifyOrder;
  key ← external_id shopifyOrder;
  r ← findOneAndUpdate (by_shopifyId key) orderData true (orders s);
  Ok (with_orders s r.1).

(** The update of [handleOrderCancelled]. *)
Definition cancellation (now : Z) (cancelled_at : value) : record :=
  [(js "status", FVal (VStr (js "cancelled")));
   (js "cancelledAt", FVal cancelled_at);
   (js "lastUpdated", FDate now)].

(** [handleOrderCancelled(shopifyOrder)]: no [upsert] option. *)
Definition handleOrderCancelled (now : Z) (shopifyOrder : value) (s : db) : result db :=
  _ ← log_id shopifyOrder;
  key ← external_id shopifyOrder;
  cancelled_at ← get shopifyOrder (js "cancelled_at");
  r ← findOneAndUpdate (by_shopifyId key)
        (cancellation now cancelled_at) false (orders s);
  Ok (with_orders s r.1).

(** The topic is one of the [case] labels. *)
Definition topic_in (topic : option jsstring) (names : list string) : bool :=
  match topic with
  | Some t => existsb (fun n => jsstring_eqb t (js n)) names
  | None => false
  end.

(** The [switch] of [handleWebhook]. *)
Definition dispatch (now : Z) (topic : option jsstring) (data : value) (s : db)
  : result db :=
  if topic_in topic ["products/create"; "products/update"]%string
  then handleProductUpdate data s
  else if topic_in topic ["products/delete"]%string
  then handleProductDelete data s
  else if topic_in topic ["customers/create"; "customers/update"]%string
  then handleCustomerUpdate data s
  else if topic_in topic ["customers/delete"]%string
  then handleCustomerDelete data s
  else if topic_in topic ["orders/create"; "orders/updated"]%string
  then handleOrderUpdate now data s
  else if topic_in topic ["orders/cancelled"]%string
  then handleOrderCancelled now data s
  else Ok s.

(** [handleWebhook(topic, data)]: the store afterwards and the [success]
    flag of the object it resolves to; it never rejects. *)
Definition handleWebhook (now : Z) (topic : option jsstring) (data : value) (s : db)
  : db * bool :=
  match dispatch now topic data s with
  | Ok s' => (s', true)
  | Throw _ => (s, false)
  end.

(** [handleItemUpdate(itemId)] of the Lightspeed handler: fetch, translate,
    upsert by [lightspeedId]; the identifier of the event is a string. *)
Definition upsertItem (now : Z) (itemId : jsstring) (s : db)
  : result (db * option doc) :=
  item ← getItemById itemId;
  productData ← convertItemToProduct now item;
  r ← findOneAndUpdate {| fkey := js "lightspeedId"; fval := itemId |}
        productData true (products s);
  Ok (with_products s r.1, r.2).


(** *** Signature verification *)

(** [process.env.SHOPIFY_WEBHOOK_SECRET || process.env.SHOPIFY_API_SECRET]:
    an unset variable reads [undefined], an empty one is falsy. *)
Definition webhook_secret (e : env) : option jsstring :=
  match SHOPIFY_WEBHOOK_SECRET e with
  | Some (c :: k) => Some (c :: k)
  | _ => SHOPIFY_API_SECRET e
  end.

(** The base64 digest of the keyed hash of a string. *)
Definition signature (key data : jsstring) : jsstring :=
  base64_encode (hmac_sha256 (utf8_encode key) (utf8_encode data)).

(** [verifyWebhook(body, hmacHeader)]; [createHmac] throws on a key that is
    [undefined]. *)
Definition verifyWebhook (e : env) (body : jsstring) (hmacHeader : option jsstring)
  : result bool :=
  match webhook_secret e with
  | None => Throw TypeError
  | Some secret =>
      let hash := signature secret body in
      Ok (bool_decide (Some hash = hmacHeader))
  end.

(** *** POST /api/shopify/webhook *)

(** The synchronous part of the route: the response, and the call of
    [handleWebhook] it starts without awaiting, if any. *)
Definition webhook_route (e : env) (req : request)
  : response * option (option jsstring * value) :=
  let hmac := x_shopify_hmac_sha256 req in
  let topic := x_shopify_topic req in
  let rawBody := utf8_decode (body req) in
  match verifyWebhook e rawBody hmac with
  | Throw err => (server_error err, None)
  | Ok false => (invalid_signature, None)
  | Ok true =>
      match JSON_parse rawBody with
      | Throw err => (server_error err, None)
      | Ok data => (acknowledged, Some (topic, data))
      end
  end.

(** A delivery: the response and the store once the processing the route
    started has run. *)
Definition webhook_delivery (e : env) (now : Z) (req : request) (s : db)
  : response * db :=
  let (res, job) := webhook_route e req in
  match job with
  | Some (topic, data) => (res, (handleWebhook now topic data s).1)
  | None => (res, s)
  end.

(** *** POST /api/shopify/sync/products *)

(** The [for] loop.  An exception of [handleProductUpdate] is caught and
    counted; the log line of the [catch] evaluates [product.id] again
    and, if that throws, the exception leaves the loop. *)
Fixpoint sync_loop (items : list value) (s : db) (synced errors : nat)
  : db * result (nat * nat) :=
  match items with
  | [] => (s, Ok (synced, errors))
  | product :: rest =>
      match handleProductUpdate product s with
      | Ok s' => sync_loop rest s' (S synced) errors
      | Throw _ =>
          match log_id product with
          | Ok _ => sync_loop rest s synced (S errors)
          | Throw e => (s, Throw e)
          end
      end
  end.

Definition sync_report (synced errors total : nat) : value :=
  VObj [(js "success", VBool true);
        (js "synced", VNum (num_of_nat synced));
        (js "errors", VNum (num_of_nat errors));
        (js "total", VNum (num_of_nat total));
        (js "message", VStr (js "Synced " ++ number_to_string (num_of_nat synced)
                             ++ js " of " ++ number_to_string (num_of_nat total)
                             ++ js " products"))].

(** The route; [fetched] is the outcome of
    [shopifyService.getProducts({ limit: 250 })]. *)
Definition sync_products_route (fetched : result (list value)) (s : db)
  : response * db :=
  match fetched with
  | Throw e => (server_error e, s)
  | Ok products =>
      match sync_loop products s 0 0 with
      | (s', Ok (synced, errors)) =>
          ({| status := 200;
              sent := Json (sync_report synced errors (length products)) |}, s')
      | (s', Throw e) => (server_error e, s')
      end
  end.

(** *** The writers of the product collection *)

Definition upsert_by (w : writer) (s : db) : result (db * option doc) :=
  match w with
  | Shopify p => upsertProduct p s
  | Lightspeed now itemId => upsertItem now itemId s
  end.

(** The [try] block of [handleProductUpdate] throws: in the translation, or
    in the upsert. *)
Definition try_throws (p : value) : bool :=
  match convertShopifyProduct p with
  | Ok u => store_rejects u
  | Throw _ => true
  end.

End Backend.

(** * The other routes, and the platform client *)

(** [acc.concat(x)]: an array is spread, any other value is appended. *)
Definition concat_value (acc : list value) (x : value) : list value :=
  match x with
  | VArr l => acc ++ l
  | _ => acc ++ [x]
  end.

(** [v.get(...)]: no prototype of a parsed value has a [get], and an own
    property of a parsed value is not callable. *)
Definition call_get (v : value) : result value := Throw TypeError.

(** The text [rel="next"]. *)
Definition rel_next : jsstring := js "rel=" ++ [34%N] ++ js "next" ++ [34%N].

(** The topics [registerWebhooks] subscribes to, services/shopify.js. *)
Definition webhookTopics : list string :=
  ["products/create"; "products/update"; "products/delete";
   "customers/create"; "customers/update"; "customers/delete";
   "orders/create"; "orders/updated"; "orders/cancelled"]%string.

(** The counters of one kind of record in the full sync. *)
Record tally := { t_synced : nat; t_errors : nat; t_total : nat }.

Definition tally_value (t : tally) : value :=
  VObj [(js "synced", VNum (num_of_nat (t_synced t)));
        (js "errors", VNum (num_of_nat (t_errors t)));
        (js "total", VNum (num_of_nat (t_total t)))].

Definition full_report (p c o : tally) : value :=
  VObj [(js "success", VBool true);
        (js "results", VObj [(js "products", tally_value p);
                             (js "customers", tally_value c);
                             (js "orders", tally_value o)]);
        (js "message", VStr (js "Full sync completed"))].

(** The response of a sync route of one kind of record. *)
Definition sync_report_of (kind : string) (synced errors total : nat) : value :=
  VObj [(js "success", VBool true);
        (js "synced", VNum (num_of_nat synced));
        (js "errors", VNum (num_of_nat errors));
        (js "total", VNum (num_of_nat total));
        (js "message", VStr (js "Synced " ++ number_to_string (num_of_nat synced)
                             ++ js " of " ++ number_to_string (num_of_nat total)
                             ++ js " " ++ js kind))].

Section Routes.

Variable store_rejects : record -> bool.

(** The readings of [new Date()] during a run, by the position in the batch
    of the item that is being handled. *)
Variable clock : nat -> Z.

(** [this.request('/products.json?' + new URLSearchParams(params))]: the
    parsed body of the answer to the [n]-th request of a run, or the
    exception of [request]. *)
Variable request_products : nat -> value -> result value.

(** The first capture of [/page_info=([^&>]+)/] in a string. *)
Variable page_info_of : jsstring -> option jsstring.

(** *** POST /api/shopify/sync/customers, POST /api/shopify/sync/orders *)

(** The [for] loop of the two routes, for the handler of the route: as in
    the product sync, the log line of the [catch] evaluates the [id] of the
    item again. *)
Fixpoint sync_loop_of (handle : nat -> value -> db -> result db) (i : nat)
    (items : list value) (s : db) (synced errors : nat)
  : db * result (nat * nat) :=
  match items with
  | [] => (s, Ok (synced, errors))
  | x :: rest =>
      match handle i x s with
      | Ok s' => sync_loop_of handle (S i) rest s' (S synced) errors
      | Throw _ =>
          match log_id x with
          | Ok _ => sync_loop_of handle (S i) rest s synced (S errors)
          | Throw e => (s, Throw e)
          end
      end
  end.

Definition sync_route_of (kind : string) (handle : nat -> value -> db -> result db)
    (fetched : result (list value)) (s : db) : response * db :=
  match fetched with
  | Throw e => (server_error e, s)
  | Ok items =>
      match sync_loop_of handle 0 items s 0 0 with
      | (s', Ok (synced, errors)) =>
          ({| status := 200;
              sent := Json (sync_report_of kind synced errors (length items)) |}, s')
      | (s', Throw e) => (server_error e, s')
      end
  end.

(** [fetched] is the outcome of [shopifyService.getCustomers({ limit: 250 })]. *)
Definition sync_customers_route (fetched : result (list value)) (s : db)
  : response * db :=
  sync_route_of "customers" (fun _ => handleCustomerUpdate store_rejects) fetched s.

(** [fetched] is the outcome of
    [shopifyService.getOrders({ limit: 250, status: 'any' })]. *)
Definition sync_orders_route (fetched : result (list value)) (s : db)
  : response * db :=
  sync_route_of "orders" (fun i => handleOrderUpdate store_rejects (clock i)) fetched s.

(** *** POST /api/shopify/sync/all *)

(** An inner [for] loop of the full sync: its [catch] only counts. *)
Fixpoint count_loop (handle : nat -> value -> db -> result db) (i : nat)
    (items : list value) (s : db) (synced errors : nat) : db * (nat * nat) :=
  match items with
  | [] => (s, (synced, errors))
  | x :: rest =>
      match handle i x s with
      | Ok s' => count_loop handle (S i) rest s' (S synced) errors
      | Throw _ => count_loop handle (S i) rest s synced (S errors)
      end
  end.

(** One of the three [try] blocks of the full sync: a fetch that throws
    leaves the counters of its kind at zero. *)
Definition sync_stage (handle : nat -> value -> db -> result db)
    (fetched : result (list value)) (s : db) : db * tally :=
  match fetched with
  | Throw _ => (s, {| t_synced := 0; t_errors := 0; t_total := 0 |})
  | Ok items =>
      let '(s', (synced, errors)) := count_loop handle 0 items s 0 0 in
      (s', {| t_synced := synced; t_errors := errors; t_total := length items |})
  end.

(** The route; the three arguments are the outcomes of [getProducts],
    [getCustomers] and [getOrders]. *)
Definition sync_all_route (fetched_products fetched_customers fetched_orders
    : result (list value)) (s : db) : response * db :=
  let (s1, p) :=
    sync_stage (fun _ => handleProductUpdate store_rejects) fetched_products s in
  let (s2, c) :=
    sync_stage (fun _ => handleCustomerUpdate store_rejects) fetched_customers s1 in
  let (s3, o) :=
    sync_stage (fun i => handleOrderUpdate store_rejects (clock i)) fetched_orders s2 in
  ({| status := 200; sent := Json (full_report p c o) |}, s3).

(** *** [getAllProducts()], services/shopify.js *)

(** One turn of the [while] loop, for the [n]-th request: the products so
    far, and the [pageInfo] of the next turn if there is one.  [response] is
    what [request] resolves to, the parsed body. *)
Definition getAllProducts_turn (n : nat) (allProducts : list value) (pageInfo : value)
  : result (list value * option value) :=
  let limit := (js "limit", VNum (Fin 250 0)) in
  let params := if truthy pageInfo
                then VObj [limit; (js "page_info", pageInfo)]
                else VObj [limit] in
  response ← request_products n params;
  products ← get response (js "products");
  let allProducts := concat_value allProducts (js_or products (VArr [])) in
  (* const linkHeader = response.headers?.get('Link'); *)
  headers ← get response (js "headers");
  linkHeader ← opt headers call_get;
  (* hasNextPage = linkHeader && linkHeader.includes('rel="next"'); *)
  hasNextPage ← (if truthy linkHeader
                 then call_includes linkHeader rel_next
                 else Ok linkHeader);
  if truthy hasNextPage then
    match linkHeader with
    | VStr l =>
        Ok (allProducts,
            Some (match page_info_of l with Some i => VStr i | None => VNull end))
    | _ => Throw TypeError
    end
  else Ok (allProducts, None).

(** The loop, with the number of requests made; [None] when the turns
    allowed are used up. *)
Fixpoint getAllProducts_loop (turns : nat) (n : nat) (allProducts : list value)
    (pageInfo : value) : option (result (list value) * nat) :=
  match turns with
  | O => None
  | S turns' =>
      match getAllProducts_turn n allProducts pageInfo with
      | Throw e => Some (Throw e, S n)
      | Ok (allProducts', Some pageInfo') =>
          getAllProducts_loop turns' (S n) allProducts' pageInfo'
      | Ok (allProducts', None) => Some (Ok allProducts', S n)
      end
  end.

Definition getAllProducts (turns : nat) : option (result (list value) * nat) :=
  getAllProducts_loop turns 0 [] VNull.

End Routes.

(** * Vocabulary of the properties *)

(** A property the payload does not carry (or carries as [null]). *)
Definition missing (v : value) (k : string) : Prop :=
  exists x, get v (js k) = Ok x /\ nullish x = true.

(** No image list (absent, [null] or empty) and no featured image. *)
Definition no_images (p : value) : Prop :=
  missing p "image" /\
  exists x, get p (js "images") = Ok x /\ (nullish x = true \/ x = VArr []).

(** A numeric field of the main variant, as the payload carries it:
    [mainVariant.price], [mainVariant.compare_at_price]. *)
Definition raw_numeric (p : value) (k : string) : result value :=
  mv ← main_variant p; get mv (js k).

(** The update writes the key of the filter. *)
Definition writes_key (f : filter) (u : record) : Prop :=
  assoc (fkey f) (rev u) = Some (FVal (VStr (fval f))).

(** [inStock == (stockQuantity > 0)], with the comparison of the language. *)
Definition stock_consistent (d : doc) : Prop :=
  exists (b : bool) (q : value),
    d !! js "inStock" = Some (FVal (VBool b)) /\
    d !! js "stockQuantity" = Some (FVal q) /\
    js_gt q zero = Ok b.

(** A record with this external identifier is in the collection. *)
Definition present (key : jsstring) (c : collection) : Prop :=
  is_Some (findOne (by_shopifyId key) c).

(** The number of items of a batch that satisfy [f]. *)
Fixpoint count (f : value -> bool) (items : list value) : nat :=
  match items with
  | [] => 0
  | p :: rest => (if f p then 1 else 0) + count f rest
  end.

(** [B'] is [B] with one byte of one code unit changed. *)
Definition single_byte_mutation (B B' : jsstring) : Prop :=
  exists (i : nat) (c c' : N),
    B !! i = Some c /\ B' = <[i := c']> B /\ c <> c' /\
    (c / 256 = c' / 256 \/ c mod 256 = c' mod 256)%N.


(** The store after a handler has run: unchanged when it threw. *)
Definition after (r : result db) (s : db) : db :=
  match r with Ok s' => s' | Throw _ => s end.

(** The translation of a payload that translates. *)
Definition translated (p : value) : record :=
  match convertShopifyProduct p with Ok r => r | Throw _ => [] end.

(** The external identifier a document is found under. *)
Definition key_of (d : doc) : option jsstring :=
  match d !! js "shopifyId" with
  | Some (FVal (VStr s)) => Some s
  | _ => None
  end.

(** No two documents of the collection have the same external identifier. *)
Definition unique_keys (c : collection) : Prop := NoDup (omap key_of c).


(** The counters of a kind add up to the number of items fetched, which is
    zero when the fetch threw. *)
Definition tallied (t : tally) (fetched : result (list value)) : Prop :=
  (t_synced t + t_errors t = t_total t)%nat /\
  t_total t = match fetched with Ok items => length items | Throw _ => 0%nat end.

(** The topic is one of those [registerWebhooks] subscribes to. *)
Definition registered (topic : option jsstring) : bool :=
  topic_in topic webhookTopics.

(** * Concrete data for the runs *)

Definition empty_db : db := {| products := []; customers := []; orders := [] |}.

(** A store that rejects a record whose price is NaN, as the cast of a
    [Number] field does, and accepts every other one. *)
Definition rejects_nan_price (u : record) : bool :=
  match field "price" u with
  | Some (FVal (VNum NaN)) => true
  | _ => false
  end.

Definition accepts_all (u : record) : bool := false.

(** Stand-ins for the keyed hash, the parser and the platform client, for
    the runs only. *)
Definition toy_hmac (key data : list byte) : list byte := key ++ data.
Definition toy_parse (s : jsstring) : result value := Throw SyntaxError.
Definition no_item (itemId : jsstring) : result value := Throw RequestError.

Definition product (id : Z) (title : string) (price : string) (qty : Z) : value :=
  VObj [(js "id", VNum (Fin id 0)); (js "title", VStr (js title));
        (js "vendor", VStr (js "Acme"));
        (js "variants",
          VArr [VObj [(js "price", VStr (js price));
                      (js "inventory_quantity", VNum (Fin qty 0))]])].

Definition mop : value := product 123 "Mop" "9.99" 5.
Definition broom : value := product 124 "Broom" "abc" 2.
Definition brush : value := product 125 "Brush" "4.50" 0.

(** A payload with nothing but an identifier and a title. *)
Definition bare : value :=
  VObj [(js "id", VNum (Fin 7 0)); (js "title", VStr (js "Sponge"))].

Definition configured : env :=
  {| SHOPIFY_WEBHOOK_SECRET := Some (js "whsec"); SHOPIFY_API_SECRET := None |}.

Definition unconfigured : env :=
  {| SHOPIFY_WEBHOOK_SECRET := None; SHOPIFY_API_SECRET := None |}.

(** The JSON text of a "Mop" payload, a parser that knows this text only,
    and its delivery under the signature of the text. *)
Definition mop_json : jsstring :=
  let q := [34%N] in
  js "{" ++ q ++ js "id" ++ q ++ js ":123," ++ q ++ js "title" ++ q ++ js ":"
  ++ q ++ js "Mop" ++ q ++ js "," ++ q ++ js "vendor" ++ q ++ js ":" ++ q
  ++ js "Acme" ++ q ++ js "," ++ q ++ js "variants" ++ q ++ js ":[{" ++ q
  ++ js "price" ++ q ++ js ":" ++ q ++ js "9.99" ++ q ++ js "," ++ q
  ++ js "inventory_quantity" ++ q ++ js ":5}]}".

Definition parse_mop (s : jsstring) : result value :=
  if jsstring_eqb s mop_json then Ok mop else Throw SyntaxError.

Definition mop_request : request :=
  {| x_shopify_hmac_sha256 := Some (signature toy_hmac (js "whsec") mop_json);
     x_shopify_topic := Some (js "products/update");
     x_shopify_shop_domain := Some (js "clean.myshopify.com");
     body := utf8_encode mop_json |}.





(** The store once the "Mop" payload has been handled. *)
Definition store_with_mop : db :=
  after (handleProductUpdate accepts_all mop empty_db) empty_db.

(** A product payload with tags, and one without an identifier. *)
Definition tagged : value :=
  VObj [(js "id", VNum (Fin 9 0)); (js "title", VStr (js "Soap"));
        (js "tags", VStr (js "eco, renewable"))].

Definition anonymous : value := VObj [(js "title", VStr (js "Soap"))].

(** A customer payload. *)
Definition ann : value :=
  VObj [(js "id", VNum (Fin 55 0)); (js "first_name", VStr (js "Ann"));
        (js "email", VStr (js "ann@example.com"));
        (js "total_spent", VStr (js "12.50")); (js "tags", VStr (js "vip"))].

(** The payload of an update of the order 900. *)
Definition paid_900 : value :=
  VObj [(js "id", VNum (Fin 900 0)); (js "order_number", VNum (Fin 1001 0));
        (js "email", VStr (js "ann@example.com"));
        (js "total_price", VStr (js "12.50"));
        (js "financial_status", VStr (js "paid"))].



(** A clock that advances by one with every item. *)
Definition ticking (i : nat) : Z := 1000 + Z.of_nat i.

(** * Properties *)

(** ** Generic facts *)

Lemma jsstring_eqb_eq (a b : jsstring) : jsstring_eqb a b = true <-> a = b.
Proof.
  revert b; induction a as [|x a IH]; intros [|y b]; simpl; try easy.
  rewrite andb_true_iff, N.eqb_eq, IH. split.
  - intros [-> ->]; reflexivity.
  - intros [= -> ->]; auto.
Qed.

Lemma jsstring_eqb_refl (a : jsstring) : jsstring_eqb a a = true.
Proof. apply jsstring_eqb_eq; reflexivity. Qed.

Lemma bind_Ok {A B} (m : result A) (f : A -> result B) (b : B) :
  (m ≫= f) = Ok b -> exists a, m = Ok a /\ f a = Ok b.
Proof. destruct m as [a|e]; simpl; [eauto | discriminate]. Qed.

(** Splits a successful sequence of binds into its steps. *)
Ltac inv_bind H :=
  repeat match type of H with
         | (_ ≫= _) = Ok _ =>
             let x := fresh "x" in
             let E := fresh "E" in
             apply bind_Ok in H; destruct H as (x & E & H)
         end.

Lemma js_or_falsy (a b : value) : truthy a = false -> js_or a b = b.
Proof. unfold js_or; intros ->; reflexivity. Qed.

Lemma js_or_truthy (a b : value) : truthy a = true -> js_or a b = a.
Proof. unfold js_or; intros ->; reflexivity. Qed.

Lemma nullish_falsy (v : value) : nullish v = true -> truthy v = false.
Proof. destruct v; simpl; congruence. Qed.

Lemma opt_nullish (v : value) (rest : value -> result value) :
  nullish v = true -> opt v rest = Ok VUndefined.
Proof. unfold opt; intros ->; reflexivity. Qed.

(** ** The product translator *)

(** C7.  A product payload without vendor, without product type and without
    images is translated to a record with brand "Unknown", category
    "Uncategorized", the placeholder URL as [imageUrl] and an empty [images]
    list. *)
Theorem default_substitution (p : value) (rec : record) :
  missing p "vendor" -> missing p "product_type" -> no_images p ->
  convertShopifyProduct p = Ok rec ->
  field "brand" rec = Some (FVal (VStr (js "Unknown"))) /\
  field "category" rec = Some (FVal (VStr (js "Uncategorized"))) /\
  field "imageUrl" rec = Some (FVal (VStr placeholder)) /\
  field "images" rec = Some (FVal (VArr [])).
Proof.
  intros (v & Hv & Nv) (t & Ht & Nt) ((i & Hi & Ni) & (l & Hl & Nl)) H.
  unfold convertShopifyProduct in H. inv_bind H.
  injection H as <-.
  rewrite Hv in *. rewrite Ht in *. rewrite Hl in *.
  repeat match goal with E : Ok _ = Ok _ |- _ => injection E as <- end.
  assert (Himg : x1 = VUndefined /\ x2 = VStr placeholder).
  { destruct Nl as [Nl | ->].
    - rewrite (opt_nullish _ _ Nl) in E1. injection E1 as <-.
      rewrite (opt_nullish _ _ Nl) in E3. injection E3 as <-.
      split; [reflexivity|].
      simpl in E2. rewrite Hi in E2. simpl in E2.
      rewrite (opt_nullish _ _ Ni) in E2. injection E2 as <-. reflexivity.
    - simpl in E1. injection E1 as <-.
      simpl in E2. rewrite Hi in E2. simpl in E2.
      rewrite (opt_nullish _ _ Ni) in E2. injection E2 as <-.
      split; reflexivity. }
  destruct Himg as [-> ->].
  unfold field; simpl.
  rewrite (js_or_falsy v) by (apply nullish_falsy; assumption).
  rewrite (js_or_falsy t) by (apply nullish_falsy; assumption).
  repeat split.
  destruct Nl as [Nl | ->].
  - rewrite (opt_nullish _ _ Nl) in E3. injection E3 as <-. reflexivity.
  - simpl in E3. injection E3 as <-. reflexivity.
Qed.

Lemma parseFloat_or_zero (v : value) (n : number) :
  parseFloat (js_or v zero) = Ok n ->
  (truthy v = false -> n = Fin 0 0) /\
  (forall s, v = VStr s -> s <> [] -> parseFloat_string s = NaN -> n = NaN).
Proof.
  intros H. split.
  - intros F. rewrite (js_or_falsy _ _ F) in H. vm_compute in H. congruence.
  - intros s -> Hs Hnan.
    rewrite js_or_truthy in H by (destruct s; [congruence | reflexivity]).
    unfold parseFloat in H; simpl in H. congruence.
Qed.

(** C6, as the code has it.  The fallback [|| 0] sits inside [parseFloat]:
    a price or compare-at price of the main variant that is absent, [null],
    the empty string or 0 is translated to 0, and a non-empty string in
    which [parseFloat] finds no number is translated to NaN. *)
Theorem numeric_fallback (p : value) (rec : record) :
  convertShopifyProduct p = Ok rec ->
  exists (vp vc : value) (np nc : number),
    raw_numeric p "price" = Ok vp /\
    raw_numeric p "compare_at_price" = Ok vc /\
    field "price" rec = Some (FVal (VNum np)) /\
    field "compareAtPrice" rec = Some (FVal (VNum nc)) /\
    (truthy vp = false -> np = Fin 0 0) /\
    (forall s, vp = VStr s -> s <> [] -> parseFloat_string s = NaN -> np = NaN) /\
    (truthy vc = false -> nc = Fin 0 0) /\
    (forall s, vc = VStr s -> s <> [] -> parseFloat_string s = NaN -> nc = NaN).
Proof.
  intros H. unfold convertShopifyProduct in H. inv_bind H. injection H as <-.
  match goal with
  | M : main_variant p = Ok ?mv,
    P : get ?mv (js "price") = Ok ?vp, FP : parseFloat (js_or ?vp zero) = Ok ?np,
    C : get ?mv (js "compare_at_price") = Ok ?vc,
    FC : parseFloat (js_or ?vc zero) = Ok ?nc |- _ =>
      exists vp, vc, np, nc; unfold raw_numeric; rewrite M; simpl;
      destruct (parseFloat_or_zero _ _ FP); destruct (parseFloat_or_zero _ _ FC)
  end.
  repeat split; assumption.
Qed.

(** ** Documents and collections *)

Lemma set_fields_snoc (u : record) (k : jsstring) (v : fieldv) (d : doc) :
  set_fields (u ++ [(k, v)]) d = <[k := v]> (set_fields u d).
Proof. unfold set_fields. rewrite foldl_app. reflexivity. Qed.

(** A field of an updated document: the last binding of the update, or else
    the field of the document. *)
Lemma lookup_set_fields (u : record) (d : doc) (k : jsstring) :
  set_fields u d !! k =
  match assoc k (rev u) with Some v => Some v | None => d !! k end.
Proof.
  induction u as [|[k' v] u IH] using rev_ind; [reflexivity|].
  rewrite set_fields_snoc, rev_app_distr. simpl.
  destruct (jsstring_eqb k k') eqn:Hk.
  - apply jsstring_eqb_eq in Hk as ->. apply lookup_insert_eq.
  - rewrite lookup_insert_ne; [exact IH|].
    intros ->. rewrite jsstring_eqb_refl in Hk. discriminate.
Qed.


Lemma matches_set_fields (f : filter) (u : record) (d : doc) :
  writes_key f u -> matches f (set_fields u d) = true.
Proof.
  unfold writes_key, matches; intros H.
  rewrite lookup_set_fields, H. apply jsstring_eqb_refl.
Qed.

Lemma update_first_elem f u c c' d :
  update_first f u c = Some (c', d) ->
  d ∈ c' /\ exists d0, d0 ∈ c /\ d = set_fields u d0.
Proof.
  revert c'; induction c as [|d1 c IH]; intros c'; simpl; [discriminate|].
  destruct (matches f d1).
  - intros [= <- <-]. split; [left|]. exists d1; split; [left | reflexivity].
  - destruct (update_first f u c) as [[c2 d2]|]; simpl; [|discriminate].
    intros [= <- <-]. destruct (IH _ eq_refl) as (? & d0 & ? & ?).
    split; [right; assumption|]. exists d0; split; [right|]; assumption.
Qed.



Lemma findOne_Some_iff f c :
  is_Some (findOne f c) <-> exists d, d ∈ c /\ matches f d = true.
Proof.
  induction c as [|d1 c IH]; simpl.
  - split; [intros [? [=]] | intros (d & Hd & _); inversion Hd].
  - destruct (matches f d1) eqn:M.
    + split; [intros _; exists d1; split; [left | assumption] | eauto].
    + rewrite IH. split.
      * intros (d & Hd & Md). exists d. split; [right|]; assumption.
      * intros (d & Hd & Md). apply elem_of_cons in Hd as [-> | Hd];
          [congruence | eauto].
Qed.

(** What the product translator writes: the key and the two stock fields. *)
Lemma convertShopifyProduct_writes (p : value) (u : record) :
  convertShopifyProduct p = Ok u ->
  exists id key q b,
    get p (js "id") = Ok id /\ call_toString id = Ok key /\
    assoc (js "shopifyId") (rev u) = Some (FVal (VStr key)) /\
    assoc (js "inStock") (rev u) = Some (FVal (VBool b)) /\
    assoc (js "stockQuantity") (rev u) = Some (FVal (js_or q zero)) /\
    js_gt q zero = Ok b.
Proof.
  intros H. unfold convertShopifyProduct in H. inv_bind H. injection H as <-.
  match goal with
  | I : get p (js "id") = Ok ?id, K : call_toString ?id = Ok ?key,
    G : js_gt ?q zero = Ok ?b |- _ =>
      exists id, key, q, b; repeat split; try assumption; reflexivity
  end.
Qed.

Lemma convertItemToProduct_writes (now : Z) (item : value) (u : record) :
  convertItemToProduct now item = Ok u ->
  exists n b,
    assoc (js "inStock") (rev u) = Some (FVal (VBool b)) /\
    assoc (js "stockQuantity") (rev u) = Some (FVal (VNum n)) /\
    js_gt (VNum n) zero = Ok b.
Proof.
  intros H. unfold convertItemToProduct in H. inv_bind H. injection H as <-.
  repeat match goal with
  | A : ?e = Ok ?a, B : ?e = Ok ?b |- _ =>
      assert (a = b) as -> by congruence; clear B
  end.
  match goal with
  | G : js_gt (VNum ?n) zero = Ok ?b |- _ =>
      exists n, b; repeat split; try assumption; reflexivity
  end.
Qed.

(** [q > 0] and [(q || 0) > 0] agree. *)
Lemma js_gt_or_zero (q : value) (b : bool) :
  js_gt q zero = Ok b -> js_gt (js_or q zero) zero = Ok b.
Proof.
  unfold js_or. destruct (truthy q) eqn:T; [trivial|].
  destruct q as [| |[]|[| |m e]|[|c s]| |]; simpl in T; try discriminate;
    try (intros [= <-]; reflexivity).
  rewrite orb_false_r, negb_false_iff in T. apply Z.eqb_eq in T as ->.
  unfold js_gt; simpl. rewrite !Z.mul_0_l. trivial.
Qed.

(** ** The stock invariant *)

Lemma set_fields_stock_consistent (u : record) (d : doc) (b : bool) (q : value) :
  assoc (js "inStock") (rev u) = Some (FVal (VBool b)) ->
  assoc (js "stockQuantity") (rev u) = Some (FVal q) ->
  js_gt q zero = Ok b ->
  stock_consistent (set_fields u d).
Proof.
  intros Hb Hq G. exists b, q. rewrite !lookup_set_fields, Hb, Hq. auto.
Qed.

Section Properties.

Variable store_rejects : record -> bool.
Variable hmac_sha256 : list byte -> list byte -> list byte.
Variable JSON_parse : jsstring -> result value.
Variable getItemById : jsstring -> result value.

(** The document an upsert resolves to is in the collection, and is the
    update applied to some document. *)
Lemma findOneAndUpdate_upsert f u c c' r :
  findOneAndUpdate store_rejects f u true c = Ok (c', r) ->
  store_rejects u = false /\
  exists d d0, r = Some d /\ d ∈ c' /\ d = set_fields u d0.
Proof.
  unfold findOneAndUpdate. destruct (store_rejects u); [discriminate|].
  destruct (update_first f u c) as [[c1 d1]|] eqn:U.
  - intros [= <- <-]. split; [reflexivity|].
    apply update_first_elem in U as (? & d0 & _ & ?). eauto.
  - intros [= <- <-]. split; [reflexivity|].
    eexists _, _. split; [reflexivity|]. split; [|reflexivity].
    apply elem_of_app; right; left.
Qed.

(** C4.  After an upsert by either writer (the Shopify translator or the
    Lightspeed translator) the stored product record satisfies
    [inStock == (stockQuantity > 0)]. *)
Theorem stock_consistency (w : writer) (s s' : db) (r : option doc) :
  upsert_by store_rejects getItemById w s = Ok (s', r) ->
  exists d, r = Some d /\ d ∈ products s' /\ stock_consistent d.
Proof.
  destruct w as [p | now itemId]; simpl; intros H.
  - unfold upsertProduct in H.
    apply bind_Ok in H as (u & C & H).
    apply bind_Ok in H as (key & _ & H).
    apply bind_Ok in H as ([c' r'] & F & [= <- <-]); simpl.
    apply findOneAndUpdate_upsert in F as (_ & d & d0 & -> & Hin & ->).
    apply convertShopifyProduct_writes in C
      as (id & key' & q & b & _ & _ & _ & Hb & Hq & G).
    eexists; split; [reflexivity|]. split; [assumption|].
    eapply set_fields_stock_consistent; eauto using js_gt_or_zero.
  - unfold upsertItem in H.
    apply bind_Ok in H as (item & _ & H).
    apply bind_Ok in H as (u & C & H).
    apply bind_Ok in H as ([c' r'] & F & [= <- <-]); simpl.
    apply findOneAndUpdate_upsert in F as (_ & d & d0 & -> & Hin & ->).
    apply convertItemToProduct_writes in C as (n & b & Hb & Hq & G).
    eexists; split; [reflexivity|]. split; [assumption|].
    eapply set_fields_stock_consistent; eauto.
Qed.


(** ** Idempotence of the product upsert *)


Lemma convertShopifyProduct_key (p : value) (u : record) :
  convertShopifyProduct p = Ok u ->
  exists key, external_id p = Ok key /\ writes_key (by_shopifyId key) u.
Proof.
  intros C. apply convertShopifyProduct_writes in C
    as (id & key & _ & _ & Hid & Hkey & W & _).
  exists key. unfold external_id. rewrite Hid; simpl. auto.
Qed.

Lemma external_id_log (x : value) (key : jsstring) :
  external_id x = Ok key -> log_id x = Ok tt.
Proof.
  unfold external_id, log_id, call_toString. intros H. inv_bind H.
  rewrite E; simpl. destruct (nullish x0); [discriminate|].
  rewrite H. reflexivity.
Qed.

(** The successful runs of [handleProductUpdate]. *)
Lemma handleProductUpdate_Ok (p : value) (s s1 : db) :
  handleProductUpdate store_rejects p s = Ok s1 <->
  exists u key c' r,
    convertShopifyProduct p = Ok u /\ external_id p = Ok key /\
    findOneAndUpdate store_rejects (by_shopifyId key) u true (products s)
      = Ok (c', r) /\
    s1 = with_products s c'.
Proof.
  unfold handleProductUpdate, upsertProduct. split.
  - intros H. apply bind_Ok in H as (? & _ & H).
    apply bind_Ok in H as ([s' r'] & U & [= <-]).
    apply bind_Ok in U as (u & C & U).
    apply bind_Ok in U as (key & K & U).
    apply bind_Ok in U as ([c' r] & F & [= <- <-]).
    exists u, key, c', r. auto.
  - intros (u & key & c' & r & C & K & F & ->).
    rewrite (external_id_log _ _ K), C, K; simpl. rewrite F. reflexivity.
Qed.


(** ** The bulk product sync *)



Lemma count_negb f items :
  (count (fun p => negb (f p)) items + count f items = length items)%nat.
Proof.
  induction items as [|p rest IH]; simpl; [reflexivity|].
  destruct (f p); simpl; lia.
Qed.

Lemma update_first_present f f' u c c' d :
  fkey f' = fkey f -> writes_key f u ->
  update_first f u c = Some (c', d) ->
  forall x, x ∈ c -> matches f' x = true ->
  exists y, y ∈ c' /\ matches f' y = true.
Proof.
  intros Hk W. revert c'; induction c as [|d1 c IH]; intros c'; simpl; [discriminate|].
  destruct (matches f d1) eqn:M.
  - intros [= <- <-] x Hx Mx. apply elem_of_cons in Hx as [-> | Hx].
    + exists (set_fields u d1). split; [left|].
      assert (fval f' = fval f) as Hv.
      { unfold matches in M, Mx. rewrite Hk in Mx.
        destruct (d1 !! fkey f) as [[[]|]|]; try discriminate.
        apply jsstring_eqb_eq in M, Mx. congruence. }
      apply matches_set_fields. unfold writes_key in *. congruence.
    + exists x. split; [right|]; assumption.
  - destruct (update_first f u c) as [[c2 d2]|]; simpl; [|discriminate].
    intros [= <- <-] x Hx Mx. apply elem_of_cons in Hx as [-> | Hx].
    + exists d1. split; [left | assumption].
    + destruct (IH _ eq_refl x Hx Mx) as (y & Hy & My).
      exists y. split; [right|]; assumption.
Qed.

(** An upsert by [shopifyId] makes its key present and keeps the keys that
    were present. *)
Lemma findOneAndUpdate_present key u c c' r :
  writes_key (by_shopifyId key) u ->
  findOneAndUpdate store_rejects (by_shopifyId key) u true c = Ok (c', r) ->
  present key c' /\ forall key', present key' c -> present key' c'.
Proof.
  intros W F. split.
  - apply findOne_Some_iff.
    apply findOneAndUpdate_upsert in F as (_ & d & d0 & _ & Hin & ->).
    exists (set_fields u d0). split; [assumption|].
    apply matches_set_fields; assumption.
  - intros key' P. apply findOne_Some_iff in P as (x & Hx & Mx).
    apply findOne_Some_iff. revert F. unfold findOneAndUpdate.
    destruct (store_rejects u); [discriminate|].
    destruct (update_first _ u c) as [[c1 d1]|] eqn:U; intros [= <- <-].
    + exact (update_first_present (by_shopifyId key) (by_shopifyId key')
               _ _ _ _ eq_refl W U x Hx Mx).
    + exists x. split; [apply elem_of_app; left|]; assumption.
Qed.

Lemma handleProductUpdate_syncs (p : value) (s : db) :
  try_throws store_rejects p = false ->
  exists s1 key,
    handleProductUpdate store_rejects p s = Ok s1 /\
    external_id p = Ok key /\ present key (products s1) /\
    forall key', present key' (products s) -> present key' (products s1).
Proof.
  unfold try_throws. destruct (convertShopifyProduct p) as [u|] eqn:C; [|discriminate].
  intros R. destruct (convertShopifyProduct_key _ _ C) as (key & K & W).
  destruct (findOneAndUpdate store_rejects (by_shopifyId key) u true (products s))
    as [[c' r]|] eqn:F.
  - exists (with_products s c'), key. split; [|split; [assumption|]].
    + apply handleProductUpdate_Ok. exists u, key, c', r. auto.
    + simpl. eapply findOneAndUpdate_present; eassumption.
  - unfold findOneAndUpdate in F. rewrite R in F.
    destruct (update_first _ u (products s)) as [[]|]; discriminate.
Qed.

Lemma handleProductUpdate_throws (p : value) (s : db) :
  try_throws store_rejects p = true ->
  exists e, handleProductUpdate store_rejects p s = Throw e.
Proof.
  intros T. destruct (handleProductUpdate store_rejects p s) as [s1|e] eqn:H; [|eauto].
  apply handleProductUpdate_Ok in H as (u & key & c' & r & C & _ & F & _).
  apply findOneAndUpdate_upsert in F as (R & _).
  unfold try_throws in T. rewrite C in T. congruence.
Qed.

(** The loop counts every item once, and every item that does not throw is
    in the store afterwards, provided the log line of the [catch] can be
    evaluated for the items that throw. *)
Lemma sync_loop_spec (items : list value) :
  forall (s : db) (synced errors : nat),
  (forall p, p ∈ items -> try_throws store_rejects p = true -> log_id p = Ok tt) ->
  exists s',
    sync_loop store_rejects items s synced errors =
      (s', Ok ((synced + count (fun p => negb (try_throws store_rejects p)) items)%nat,
               (errors + count (try_throws store_rejects) items)%nat)) /\
    (forall key, present key (products s) -> present key (products s')) /\
    (forall p, p ∈ items -> try_throws store_rejects p = false ->
       exists key, external_id p = Ok key /\ present key (products s')).
Proof.
  induction items as [|p rest IH]; intros s synced errors Hlog; simpl.
  - exists s. rewrite !Nat.add_0_r. split; [reflexivity|]. split; [auto|].
    intros p Hp. inversion Hp.
  - assert (Hrest : forall q, q ∈ rest -> try_throws store_rejects q = true -> log_id q = Ok tt)
      by (intros q Hq; apply Hlog; right; assumption).
    destruct (try_throws store_rejects p) eqn:T; simpl.
    + destruct (handleProductUpdate_throws p s T) as [e ->].
      rewrite (Hlog p) by (left || assumption).
      destruct (IH s synced (S errors) Hrest) as (s' & -> & Hkeep & Hin).
      exists s'. split; [f_equal; f_equal; f_equal; lia|]. split; [assumption|].
      intros q Hq Tq. apply elem_of_cons in Hq as [-> | Hq]; [congruence | auto].
    + destruct (handleProductUpdate_syncs p s T) as (s1 & key & -> & K & P & Hkeep1).
      destruct (IH s1 (S synced) errors Hrest) as (s' & -> & Hkeep & Hin).
      exists s'. split; [f_equal; f_equal; f_equal; lia|]. split; [auto|].
      intros q Hq Tq. apply elem_of_cons in Hq as [-> | Hq]; [eauto | auto].
Qed.


(** ** Signature verification and the webhook endpoint *)

(** C1, as the code has it.  With a configured secret, a body is accepted
    under its own signature, and another body is accepted under that
    signature exactly when its own signature is the same; this is the case
    whenever the two bodies have the same UTF-8 encoding. *)
Theorem signature_check (e : env) (secret B B' : jsstring) :
  webhook_secret e = Some secret ->
  verifyWebhook hmac_sha256 e B (Some (signature hmac_sha256 secret B)) = Ok true /\
  verifyWebhook hmac_sha256 e B' (Some (signature hmac_sha256 secret B))
    = Ok (bool_decide (signature hmac_sha256 secret B'
                       = signature hmac_sha256 secret B)) /\
  (utf8_encode B' = utf8_encode B ->
   verifyWebhook hmac_sha256 e B' (Some (signature hmac_sha256 secret B)) = Ok true).
Proof.
  intros Hs. unfold verifyWebhook. rewrite Hs. split; [|split].
  - rewrite bool_decide_eq_true_2; reflexivity.
  - f_equal. apply bool_decide_ext. split; congruence.
  - intros Hu. unfold signature. rewrite Hu.
    rewrite bool_decide_eq_true_2; reflexivity.
Qed.


(** C10.  When no secret is configured, [verifyWebhook] throws on every body
    and header, and every delivery is answered 500, not 401; the store is
    unchanged. *)
Theorem missing_secret_throws (e : env) :
  SHOPIFY_WEBHOOK_SECRET e = None -> SHOPIFY_API_SECRET e = None ->
  (forall body hmacHeader,
     verifyWebhook hmac_sha256 e body hmacHeader = Throw TypeError) /\
  (forall now req s,
     webhook_delivery store_rejects hmac_sha256 JSON_parse e now req s
       = (server_error TypeError, s)) /\
  status (server_error TypeError) = 500 /\
  server_error TypeError <> invalid_signature.
Proof.
  intros H1 H2.
  assert (V : forall body hmacHeader,
             verifyWebhook hmac_sha256 e body hmacHeader = Throw TypeError).
  { intros. unfold verifyWebhook, webhook_secret. rewrite H1, H2. reflexivity. }
  split; [exact V|]. split; [|split; [reflexivity | discriminate]].
  intros. unfold webhook_delivery, webhook_route. rewrite V. reflexivity.
Qed.

(** ** Order cancellation *)


(** An update changes at most one document, and makes it the update
    applied to that document. *)
Lemma update_first_frame f u c c' d :
  update_first f u c = Some (c', d) ->
  length c' = length c /\
  forall i x, c !! i = Some x ->
    exists x', c' !! i = Some x' /\ (x' = x \/ x' = set_fields u x).
Proof.
  revert c'; induction c as [|d1 c IH]; intros c'; simpl; [discriminate|].
  destruct (matches f d1).
  - intros [= <- <-]. split; [reflexivity|].
    intros [|i] x Hx; simpl in *; [injection Hx as <-|]; eauto.
  - destruct (update_first f u c) as [[c2 d2]|]; simpl; [|discriminate].
    intros [= <- <-]. destruct (IH _ eq_refl) as (Hlen & Hf).
    split; [simpl; congruence|].
    intros [|i] x Hx; simpl in *; [injection Hx as <-|]; eauto.
Qed.

(** The document that is updated is the one [findOne] finds; it is still
    found afterwards when the update leaves the key of the filter alone. *)
Lemma update_first_findOne f u c c' d :
  update_first f u c = Some (c', d) ->
  exists d0, findOne f c = Some d0 /\ d = set_fields u d0 /\
             (matches f d = true -> findOne f c' = Some d).
Proof.
  revert c'; induction c as [|d1 c IH]; intros c'; simpl; [discriminate|].
  destruct (matches f d1) eqn:M.
  - intros [= <- <-]. exists d1. repeat split. simpl. intros ->. reflexivity.
  - destruct (update_first f u c) as [[c2 d2]|]; simpl; [|discriminate].
    intros [= <- <-]. destruct (IH _ eq_refl) as (d0 & F & -> & K).
    exists d0. repeat split; [assumption|]. simpl. rewrite M. exact K.
Qed.


Lemma update_first_None f u c :
  update_first f u c = None -> findOne f c = None.
Proof.
  induction c as [|d1 c IH]; simpl; [reflexivity|].
  destruct (matches f d1); [discriminate|].
  destruct (update_first f u c) as [[c2 d2]|]; simpl; [discriminate | exact IH].
Qed.


(** The runs of [handleOrderCancelled] that do not throw. *)
Lemma handleOrderCancelled_Ok (now : Z) (order : value) (s s' : db) :
  handleOrderCancelled store_rejects now order s = Ok s' ->
  exists key c,
    external_id order = Ok key /\ get order (js "cancelled_at") = Ok c /\
    match update_first (by_shopifyId key) (cancellation now c) (orders s) with
    | Some (c', _) => s' = with_orders s c'
    | None => s' = with_orders s (orders s)
    end.
Proof.
  unfold handleOrderCancelled. intros H.
  apply bind_Ok in H as (? & _ & H).
  apply bind_Ok in H as (key & K & H).
  apply bind_Ok in H as (c & C & H).
  apply bind_Ok in H as ([c' r] & F & [= <-]).
  exists key, c. repeat split; try assumption.
  unfold findOneAndUpdate in F. destruct (store_rejects _); [discriminate|].
  destruct (update_first _ _ (orders s)) as [[c1 d1]|];
    injection F as <- <-; reflexivity.
Qed.


End Properties.

(** * Further properties *)

(** ** Look-up after an upsert or a deletion *)

Lemma matches_key_of (key : jsstring) (d : doc) :
  matches (by_shopifyId key) d = true <-> key_of d = Some key.
Proof.
  unfold matches, key_of. cbn [fkey fval by_shopifyId].
  destruct (d !! js "shopifyId") as [[[]|]|]; try (split; discriminate).
  rewrite jsstring_eqb_eq. split; congruence.
Qed.

Lemma matches_other (f f' : filter) (d : doc) :
  fkey f' = fkey f -> fval f' <> fval f ->
  matches f d = true -> matches f' d = false.
Proof.
  unfold matches. intros -> Hv.
  destruct (d !! fkey f) as [[[]|]|]; try discriminate.
  intros M. apply jsstring_eqb_eq in M as ->.
  destruct (jsstring_eqb (fval f) (fval f')) eqn:E; [|reflexivity].
  apply jsstring_eqb_eq in E. congruence.
Qed.

Lemma findOne_app (f : filter) (c : collection) (d : doc) :
  findOne f (c ++ [d]) =
  match findOne f c with
  | Some x => Some x
  | None => if matches f d then Some d else None
  end.
Proof.
  induction c as [|d1 c IH]; simpl; [reflexivity|].
  destruct (matches f d1); [reflexivity | exact IH].
Qed.

(** An update leaves the look-ups under the other values of the key alone. *)
Lemma update_first_other (f f' : filter) u c c' d :
  fkey f' = fkey f -> fval f' <> fval f -> writes_key f u ->
  update_first f u c = Some (c', d) ->
  findOne f' c' = findOne f' c.
Proof.
  intros Hk Hv W. revert c'; induction c as [|d1 c IH]; intros c'; simpl; [discriminate|].
  destruct (matches f d1) eqn:M.
  - intros [= <- <-]. simpl.
    rewrite (matches_other f f' _ Hk Hv (matches_set_fields _ _ _ W)).
    rewrite (matches_other f f' _ Hk Hv M). reflexivity.
  - destruct (update_first f u c) as [[c2 d2]|]; simpl; [|discriminate].
    intros [= <- <-]. simpl. rewrite (IH _ eq_refl). reflexivity.
Qed.

Lemma delete_first_other (f f' : filter) (c : collection) :
  fkey f' = fkey f -> fval f' <> fval f ->
  findOne f' (delete_first f c) = findOne f' c.
Proof.
  intros Hk Hv. induction c as [|d1 c IH]; simpl; [reflexivity|].
  destruct (matches f d1) eqn:M.
  - rewrite (matches_other f f' _ Hk Hv M). reflexivity.
  - simpl. rewrite IH. reflexivity.
Qed.

Lemma delete_first_absent (f : filter) (c : collection) :
  findOne f c = None -> delete_first f c = c.
Proof.
  induction c as [|d1 c IH]; simpl; [reflexivity|].
  destruct (matches f d1); [discriminate|]. intros H. rewrite IH; auto.
Qed.

Lemma delete_first_inserted (f : filter) (c : collection) (d : doc) :
  findOne f c = None -> matches f d = true -> delete_first f (c ++ [d]) = c.
Proof.
  intros H M. induction c as [|d1 c IH]; simpl in *.
  - rewrite M. reflexivity.
  - destruct (matches f d1); [discriminate|]. rewrite IH; auto.
Qed.

Lemma omap_key_of_absent (key : jsstring) (c : collection) :
  findOne (by_shopifyId key) c = None <-> key ∉ omap key_of c.
Proof.
  induction c as [|d1 c IH]; simpl.
  - split; [intros _ H; inversion H | reflexivity].
  - destruct (matches (by_shopifyId key) d1) eqn:M.
    + apply matches_key_of in M. rewrite M. split; [discriminate|].
      intros H. exfalso. apply H. left.
    + assert (key_of d1 <> Some key) as N
        by (intros K; apply matches_key_of in K; congruence).
      destruct (key_of d1) as [k|]; [|exact IH].
      rewrite IH, not_elem_of_cons. split; [|tauto].
      intros H. split; [congruence | exact H].
Qed.

Lemma delete_first_unique (key : jsstring) (c : collection) :
  unique_keys c ->
  unique_keys (delete_first (by_shopifyId key) c) /\
  findOne (by_shopifyId key) (delete_first (by_shopifyId key) c) = None.
Proof.
  unfold unique_keys. induction c as [|d1 c IH]; simpl; [auto|].
  destruct (matches (by_shopifyId key) d1) eqn:M.
  - apply matches_key_of in M. rewrite M. intros H.
    apply NoDup_cons in H as [Hn H]. split; [exact H|].
    apply omap_key_of_absent. exact Hn.
  - simpl. rewrite M. destruct (key_of d1) as [k|] eqn:K.
    + intros H. apply NoDup_cons in H as [Hn H].
      destruct (IH H) as [U A]. split; [|exact A].
      apply NoDup_cons. split; [|exact U].
      intros Hin. apply Hn. clear -Hin.
      induction c as [|d2 c IHc]; simpl in *; [exact Hin|].
      destruct (matches (by_shopifyId key) d2).
      * destruct (key_of d2); [right|]; exact Hin.
      * simpl in Hin. destruct (key_of d2); [|auto].
        apply elem_of_cons in Hin as [-> | Hin]; [left | right; auto].
    + exact IH.
Qed.

Lemma update_first_keys (key : jsstring) u c c' d :
  writes_key (by_shopifyId key) u ->
  update_first (by_shopifyId key) u c = Some (c', d) ->
  omap key_of c' = omap key_of c.
Proof.
  intros W. revert c'; induction c as [|d1 c IH]; intros c'; simpl; [discriminate|].
  destruct (matches (by_shopifyId key) d1) eqn:M.
  - intros [= <- <-]. simpl.
    apply matches_key_of in M. rewrite M.
    rewrite (proj1 (matches_key_of key _) (matches_set_fields _ _ _ W)).
    reflexivity.
  - destruct (update_first _ u c) as [[c2 d2]|]; simpl; [|discriminate].
    intros [= <- <-]. specialize (IH _ eq_refl). simpl.
    destruct (key_of d1); [f_equal|]; exact IH.
Qed.

(** ** An update written over another one *)

Lemma bind_ret_l {A B} (a : A) (f : A -> result B) : (Ok a ≫= f) = f a.
Proof. reflexivity. Qed.






(** ** Property reads *)

Lemma get_Throw (v : value) (k : jsstring) (e : exn) :
  get v k = Throw e -> nullish v = true.
Proof. destruct v; simpl; congruence. Qed.

Lemma get_Ok (v : value) (k : jsstring) :
  nullish v = false -> exists x, get v k = Ok x.
Proof. destruct v; simpl; try discriminate; eauto. Qed.

Lemma get_Ok_nullish (v : value) (k : jsstring) (x : value) :
  get v k = Ok x -> nullish v = false.
Proof. destruct v; simpl; congruence. Qed.

Lemma nullish_js_or (a b : value) : nullish b = false -> nullish (js_or a b) = false.
Proof.
  unfold js_or. intros H. destruct (truthy a) eqn:T; [|exact H].
  destruct a; try reflexivity; discriminate.
Qed.

Ltac ret := repeat (rewrite bind_ret_l; cbv beta).

(** ** Decoding what was encoded *)

Local Open Scope N_scope.











Local Close Scope N_scope.

(** ** Splitting and joining *)

Lemma split_go_skip (sep cur pre s : jsstring) :
  split_go sep cur (pre ++ s) (length pre) = split_go sep cur s 0.
Proof.
  induction pre as [|c pre IH]; [reflexivity|].
  simpl. exact IH.
Qed.

Lemma starts_with_app (sep s : jsstring) :
  starts_with sep s = true -> exists s', s = sep ++ s'.
Proof.
  revert s; induction sep as [|a sep IH]; intros s; simpl; [eauto|].
  destruct s as [|b s]; [discriminate|].
  intros H. apply andb_true_iff in H as [E H]. apply N.eqb_eq in E as ->.
  destruct (IH _ H) as [s' ->]. eauto.
Qed.

Lemma split_go_nonempty (sep cur s : jsstring) (skip : nat) :
  split_go sep cur s skip <> [].
Proof.
  revert cur skip; induction s as [|c s IH]; intros cur skip; simpl; [discriminate|].
  destruct skip; [|apply IH].
  destruct (starts_with sep (c :: s)); [discriminate | apply IH].
Qed.

Lemma str_join_cons (sep x : jsstring) (l : list jsstring) :
  l <> [] -> str_join sep (x :: l) = x ++ sep ++ str_join sep l.
Proof. destruct l; [congruence | reflexivity]. Qed.

(** Joining the pieces of a string with the separator gives the string. *)
Lemma str_join_split (sep : jsstring) (n : nat) :
  sep <> [] ->
  forall s cur : jsstring, (length s <= n)%nat ->
  str_join sep (split_go sep cur s 0) = rev cur ++ s.
Proof.
  intros Hsep. induction n as [|n IH]; intros [|c s] cur Hlen; simpl in Hlen;
    try (simpl; rewrite app_nil_r; reflexivity); try lia.
  cbn [split_go].
  destruct (starts_with sep (c :: s)) eqn:E.
  - destruct (starts_with_app _ _ E) as [s' Hs'].
    destruct sep as [|a sep]; [congruence|].
    injection Hs' as <- ->.
    replace (length (c :: sep) - 1)%nat with (length sep) by (simpl; lia).
    rewrite split_go_skip, str_join_cons by apply split_go_nonempty.
    rewrite IH by (rewrite length_app in Hlen; lia).
    reflexivity.
  - rewrite IH by lia. simpl. rewrite <- app_assoc. reflexivity.
Qed.

(** Runs the property reads at the head of a translator. *)
Ltac get_steps Nc :=
  repeat match goal with
  | |- exists u, (get ?v ?k ≫= _) = Ok u =>
      first
        [ match goal with H : get v k = Ok _ |- _ => rewrite H end
        | let x := fresh "x" in
          let E := fresh "E" in
          destruct (get_Ok v k) as [x E];
          [first [exact Nc | apply nullish_js_or; reflexivity] |];
          rewrite E ];
      rewrite bind_ret_l; cbv beta
  end.

Section Further.

Variable store_rejects : record -> bool.
Variable hmac_sha256 : list byte -> list byte -> list byte.
Variable JSON_parse : jsstring -> result value.
Variable getItemById : jsstring -> result value.
Variable clock : nat -> Z.
Variable request_products : nat -> value -> result value.
Variable page_info_of : jsstring -> option jsstring.

(** What an upsert does to the look-ups and to the size of a collection. *)
Lemma findOneAndUpdate_lookup f u c c' r :
  writes_key f u ->
  findOneAndUpdate store_rejects f u true c = Ok (c', r) ->
  findOne f c' = Some (set_fields u (default {[ fkey f := FVal (VStr (fval f)) ]}
                                             (findOne f c))) /\
  (forall f', fkey f' = fkey f -> fval f' <> fval f ->
     findOne f' c' = findOne f' c) /\
  length c' = (length c + match findOne f c with Some _ => 0 | None => 1 end)%nat.
Proof.
  intros W. unfold findOneAndUpdate. destruct (store_rejects u); [discriminate|].
  destruct (update_first f u c) as [[c1 d1]|] eqn:U; intros [= <- <-].
  - destruct (update_first_findOne _ _ _ _ _ U) as (d0 & F & -> & K).
    destruct (update_first_frame _ _ _ _ _ U) as (L & _).
    rewrite F. simpl. split; [|split].
    + apply K, matches_set_fields, W.
    + intros f' Hk Hv. exact (update_first_other f f' _ _ _ _ Hk Hv W U).
    + lia.
  - apply update_first_None in U. rewrite U. simpl. split; [|split].
    + rewrite findOne_app, U, (matches_set_fields _ _ _ W). reflexivity.
    + intros f' Hk Hv. rewrite findOne_app.
      rewrite (matches_other f f' _ Hk Hv (matches_set_fields _ _ _ W)).
      destruct (findOne f' c); reflexivity.
    + rewrite length_app. reflexivity.
Qed.

Lemma findOneAndUpdate_unique key u c c' r :
  writes_key (by_shopifyId key) u ->
  findOneAndUpdate store_rejects (by_shopifyId key) u true c = Ok (c', r) ->
  unique_keys c -> unique_keys c'.
Proof.
  intros W. unfold findOneAndUpdate, unique_keys.
  destruct (store_rejects u); [discriminate|].
  destruct (update_first _ u c) as [[c1 d1]|] eqn:U; intros [= <- <-] N.
  - rewrite (update_first_keys _ _ _ _ _ W U). exact N.
  - apply update_first_None, omap_key_of_absent in U.
    rewrite omap_app. simpl.
    rewrite (proj1 (matches_key_of key _) (matches_set_fields _ _ _ W)).
    apply NoDup_app. split; [exact N|]. split; [|apply NoDup_singleton].
    intros x Hx Hin. apply list_elem_of_singleton in Hin as ->. auto.
Qed.


(** X2.  A product update never duplicates an identifier: the collection
    grows by one document when the identifier of the payload was not in
    it, keeps its size when it was, and identifiers that were unique stay
    unique. *)
Theorem handleProductUpdate_unique (p : value) (s s1 : db) :
  handleProductUpdate store_rejects p s = Ok s1 ->
  (exists key, external_id p = Ok key /\
     length (products s1) =
       (length (products s)
        + match findOne (by_shopifyId key) (products s) with
          | Some _ => 0 | None => 1 end)%nat) /\
  (unique_keys (products s) -> unique_keys (products s1)).
Proof.
  intros H. apply handleProductUpdate_Ok in H as (u & key & c' & r & C & K & F & ->).
  destruct (convertShopifyProduct_key _ _ C) as (key' & K' & W).
  assert (key' = key) as -> by congruence.
  destruct (findOneAndUpdate_lookup _ _ _ _ _ W F) as (_ & _ & L).
  split; [exists key; auto|].
  exact (findOneAndUpdate_unique _ _ _ _ _ W F).
Qed.

Lemma external_id_Ok (x : value) (key : jsstring) :
  external_id x = Ok key <->
  exists id, get x (js "id") = Ok id /\ nullish id = false /\ to_string id = Ok key.
Proof.
  unfold external_id, call_toString. split.
  - intros H. apply bind_Ok in H as (id & G & H). exists id.
    destruct (nullish id); [discriminate | auto].
  - intros (id & -> & N & T). simpl. rewrite N. exact T.
Qed.

(** The runs of [handleProductDelete] that do not throw. *)
Lemma handleProductDelete_Ok (data : value) (s s1 : db) :
  handleProductDelete data s = Ok s1 <->
  exists key, external_id data = Ok key /\
    s1 = with_products s (delete_first (by_shopifyId key) (products s)).
Proof.
  unfold handleProductDelete, findOneAndDelete. split.
  - intros H. apply bind_Ok in H as (id & G & H).
    apply bind_Ok in H as (? & _ & H).
    apply bind_Ok in H as (key & K & [= <-]).
    exists key. split; [|reflexivity]. unfold external_id. rewrite G. exact K.
  - intros (key & K & ->). apply external_id_Ok in K as (id & -> & N & T).
    simpl. rewrite T. unfold call_toString. rewrite N, T. reflexivity.
Qed.

Lemma with_products_same (s : db) : with_products s (products s) = s.
Proof. destruct s; reflexivity. Qed.

(** X3.  After a product deletion that succeeds, the look-up under any
    other identifier, the customers and the orders are as before; the
    identifier of the payload is not found any more when identifiers were
    unique, and the store is unchanged when it was not in it. *)
Theorem handleProductDelete_lookup (data : value) (s s1 : db) :
  handleProductDelete data s = Ok s1 ->
  exists key,
    external_id data = Ok key /\
    (forall key', key' <> key ->
       findOne (by_shopifyId key') (products s1)
       = findOne (by_shopifyId key') (products s)) /\
    (unique_keys (products s) ->
       findOne (by_shopifyId key) (products s1) = None /\
       unique_keys (products s1)) /\
    (findOne (by_shopifyId key) (products s) = None -> s1 = s) /\
    customers s1 = customers s /\ orders s1 = orders s.
Proof.
  intros H. apply handleProductDelete_Ok in H as (key & K & ->).
  exists key. simpl. repeat split; try assumption.
  - intros k Hk. apply delete_first_other; [reflexivity | exact Hk].
  - apply delete_first_unique. assumption.
  - apply delete_first_unique. assumption.
  - intros A. rewrite (delete_first_absent _ _ A). apply with_products_same.
Qed.

(** X4.  Creating a product and deleting it again gives back the store:
    when the identifier of a payload is not in the collection, a product
    update followed by a product deletion with the same payload leaves
    the store as it was. *)
Theorem upsert_then_delete (p : value) (s s1 : db) (key : jsstring) :
  external_id p = Ok key ->
  findOne (by_shopifyId key) (products s) = None ->
  handleProductUpdate store_rejects p s = Ok s1 ->
  handleProductDelete p s1 = Ok s.
Proof.
  intros K A H.
  apply handleProductUpdate_Ok in H as (u & key' & c' & r & C & K' & F & ->).
  assert (key' = key) as -> by congruence.
  destruct (convertShopifyProduct_key _ _ C) as (key' & K2 & W).
  assert (key' = key) as -> by congruence.
  apply handleProductDelete_Ok. exists key. split; [exact K|]. simpl.
  revert F. unfold findOneAndUpdate. destruct (store_rejects u); [discriminate|].
  destruct (update_first _ u (products s)) as [[c1 d1]|] eqn:U.
  - apply update_first_findOne in U as (d0 & F0 & _). congruence.
  - intros [= <- <-].
    rewrite (delete_first_inserted _ _ _ A (matches_set_fields _ _ _ W)).
    destruct s; reflexivity.
Qed.

(** ** The customer and order handlers *)

Lemma convertShopifyCustomer_key (c : value) (u : record) :
  convertShopifyCustomer c = Ok u ->
  exists key, external_id c = Ok key /\ writes_key (by_shopifyId key) u.
Proof.
  intros H. unfold convertShopifyCustomer in H. inv_bind H. injection H as <-.
  match goal with
  | I : get c (js "id") = Ok ?id, K : call_toString ?id = Ok ?key |- _ =>
      exists key; unfold external_id; rewrite I; split; [exact K | reflexivity]
  end.
Qed.


(** The successful runs of [handleCustomerUpdate] and [handleOrderUpdate]. *)
Lemma handleCustomerUpdate_Ok (c : value) (s s1 : db) :
  handleCustomerUpdate store_rejects c s = Ok s1 <->
  exists u key c' r,
    convertShopifyCustomer c = Ok u /\ external_id c = Ok key /\
    findOneAndUpdate store_rejects (by_shopifyId key) u true (customers s)
      = Ok (c', r) /\
    s1 = with_customers s c'.
Proof.
  unfold handleCustomerUpdate. split.
  - intros H. apply bind_Ok in H as (? & _ & H).
    apply bind_Ok in H as (u & C & H).
    apply bind_Ok in H as (key & K & H).
    apply bind_Ok in H as ([c' r] & F & [= <-]).
    exists u, key, c', r. auto.
  - intros (u & key & c' & r & C & K & F & ->).
    rewrite (external_id_log _ _ K), C, K; simpl. rewrite F. reflexivity.
Qed.

Lemma handleOrderUpdate_Ok (now : Z) (o : value) (s s1 : db) :
  handleOrderUpdate store_rejects now o s = Ok s1 <->
  exists u key c' r,
    convertShopifyOrder now o = Ok u /\ external_id o = Ok key /\
    findOneAndUpdate store_rejects (by_shopifyId key) u true (orders s)
      = Ok (c', r) /\
    s1 = with_orders s c'.
Proof.
  unfold handleOrderUpdate. split.
  - intros H. apply bind_Ok in H as (? & _ & H).
    apply bind_Ok in H as (u & C & H).
    apply bind_Ok in H as (key & K & H).
    apply bind_Ok in H as ([c' r] & F & [= <-]).
    exists u, key, c', r. auto.
  - intros (u & key & c' & r & C & K & F & ->).
    rewrite (external_id_log _ _ K), C, K; simpl. rewrite F. reflexivity.
Qed.

Lemma handleCustomerDelete_Ok (data : value) (s s1 : db) :
  handleCustomerDelete data s = Ok s1 <->
  exists key, external_id data = Ok key /\
    s1 = with_customers s (delete_first (by_shopifyId key) (customers s)).
Proof.
  unfold handleCustomerDelete, findOneAndDelete. split.
  - intros H. apply bind_Ok in H as (id & G & H).
    apply bind_Ok in H as (? & _ & H).
    apply bind_Ok in H as (key & K & [= <-]).
    exists key. split; [|reflexivity]. unfold external_id. rewrite G. exact K.
  - intros (key & K & ->). apply external_id_Ok in K as (id & -> & N & T).
    simpl. rewrite T. unfold call_toString. rewrite N, T. reflexivity.
Qed.

(** ** The topics *)

Ltac split_topics :=
  repeat match goal with
  | H : _ || _ = false |- _ => apply orb_false_iff in H as [? ?]
  end;
  repeat match goal with
  | H : jsstring_eqb _ _ = false |- _ => rewrite H in *; clear H
  end.

Lemma dispatch_unregistered (now : Z) (topic : option jsstring) (data : value) (s : db) :
  registered topic = false -> dispatch store_rejects now topic data s = Ok s.
Proof.
  intros R. unfold dispatch. destruct topic as [t|]; [|reflexivity].
  unfold registered, topic_in, webhookTopics in R. cbn [existsb] in R.
  unfold topic_in. cbn [existsb]. split_topics. reflexivity.
Qed.

(** A handler that does not throw has found the identifier of the payload
    and has changed the collection of its topic at most. *)
Lemma dispatch_Ok (now : Z) (topic : option jsstring) (data : value) (s s1 : db) :
  dispatch store_rejects now topic data s = Ok s1 ->
  (registered topic = true -> exists key, external_id data = Ok key) /\
  (topic_in topic ["products/create"; "products/update"; "products/delete"]%string
     = false -> products s1 = products s) /\
  (topic_in topic ["customers/create"; "customers/update"; "customers/delete"]%string
     = false -> customers s1 = customers s) /\
  (topic_in topic ["orders/create"; "orders/updated"; "orders/cancelled"]%string
     = false -> orders s1 = orders s).
Proof.
  unfold dispatch.
  destruct (topic_in topic ["products/create"; "products/update"]%string) eqn:T1.
  { intros H. apply handleProductUpdate_Ok in H as (u & key & c' & r & _ & K & _ & ->).
    repeat split; eauto.
    destruct topic as [t|]; [|discriminate]. unfold topic_in in *.
    cbn [existsb] in *. intros F. split_topics. discriminate. }
  destruct (topic_in topic ["products/delete"]%string) eqn:T2.
  { intros H. apply handleProductDelete_Ok in H as (key & K & ->).
    repeat split; eauto.
    destruct topic as [t|]; [|discriminate]. unfold topic_in in *.
    cbn [existsb] in *. intros F. split_topics. discriminate. }
  destruct (topic_in topic ["customers/create"; "customers/update"]%string) eqn:T3.
  { intros H. apply handleCustomerUpdate_Ok in H as (u & key & c' & r & _ & K & _ & ->).
    repeat split; eauto.
    destruct topic as [t|]; [|discriminate]. unfold topic_in in *.
    cbn [existsb] in *. intros F. split_topics. discriminate. }
  destruct (topic_in topic ["customers/delete"]%string) eqn:T4.
  { intros H. apply handleCustomerDelete_Ok in H as (key & K & ->).
    repeat split; eauto.
    destruct topic as [t|]; [|discriminate]. unfold topic_in in *.
    cbn [existsb] in *. intros F. split_topics. discriminate. }
  destruct (topic_in topic ["orders/create"; "orders/updated"]%string) eqn:T5.
  { intros H. apply handleOrderUpdate_Ok in H as (u & key & c' & r & _ & K & _ & ->).
    repeat split; eauto.
    destruct topic as [t|]; [|discriminate]. unfold topic_in in *.
    cbn [existsb] in *. intros F. split_topics. discriminate. }
  destruct (topic_in topic ["orders/cancelled"]%string) eqn:T6.
  { intros H. apply handleOrderCancelled_Ok in H as (key & c & K & _ & U).
    assert (products s1 = products s /\ customers s1 = customers s) as [? ?]
      by (destruct (update_first _ _ (orders s)) as [[]|]; subst s1; auto).
    repeat split; eauto.
    destruct topic as [t|]; [|discriminate]. unfold topic_in in *.
    cbn [existsb] in *. intros F. split_topics. discriminate. }
  intros [= <-]. repeat split; try reflexivity.
  intros R. exfalso. destruct topic as [t|]; [|discriminate].
  unfold registered, topic_in, webhookTopics in *. cbn [existsb] in *.
  split_topics. discriminate.
Qed.

(** X5.  [handleWebhook] acts on no topic besides those [registerWebhooks]
    subscribes to: a delivery under any other topic, or without a topic,
    leaves the store as it is and reports success. *)
Theorem unregistered_topic_ignored (now : Z) (topic : option jsstring)
    (data : value) (s : db) :
  registered topic = false ->
  handleWebhook store_rejects now topic data s = (s, true).
Proof.
  intros R. unfold handleWebhook. rewrite (dispatch_unregistered _ _ _ _ R).
  reflexivity.
Qed.

(** X6.  A delivery changes the collection of its topic at most: the
    products change on a product topic only, the customers on a customer
    topic only, the orders on an order topic only. *)
Theorem topic_isolation (now : Z) (topic : option jsstring) (data : value) (s : db) :
  let s1 := (handleWebhook store_rejects now topic data s).1 in
  (topic_in topic ["products/create"; "products/update"; "products/delete"]%string
     = false -> products s1 = products s) /\
  (topic_in topic ["customers/create"; "customers/update"; "customers/delete"]%string
     = false -> customers s1 = customers s) /\
  (topic_in topic ["orders/create"; "orders/updated"; "orders/cancelled"]%string
     = false -> orders s1 = orders s).
Proof.
  unfold handleWebhook.
  destruct (dispatch store_rejects now topic data s) as [s1|e] eqn:D; simpl.
  - apply dispatch_Ok in D as (_ & D). exact D.
  - auto.
Qed.

(** X7.  A delivery under a registered topic whose payload has no
    identifier that can be read and converted (the payload is [null], it
    has no [id], or its [id] is [null]) changes nothing and reports
    failure. *)
Theorem delivery_without_id_rejected (now : Z) (topic : option jsstring)
    (data : value) (s : db) (e : exn) :
  registered topic = true -> external_id data = Throw e ->
  handleWebhook store_rejects now topic data s = (s, false).
Proof.
  intros R K. unfold handleWebhook.
  destruct (dispatch store_rejects now topic data s) as [s1|e'] eqn:D; [|reflexivity].
  apply dispatch_Ok in D as (D & _). destruct (D R) as [key K']. congruence.
Qed.

(** ** Repeated deliveries *)






(** ** Cancellations and later deliveries *)



(** ** When the translators throw *)

(** X12.  The customer translator throws in three cases only: the payload
    has no identifier that can be read and converted, its [total_spent]
    cannot be converted to a string, or its [tags] is a truthy value that
    is not a string (an array of tags, for one). *)
Theorem convertShopifyCustomer_succeeds_iff (c : value) :
  (exists u, convertShopifyCustomer c = Ok u) <->
  (exists key, external_id c = Ok key) /\
  (exists ts t, get c (js "total_spent") = Ok ts /\ to_string (js_or ts zero) = Ok t) /\
  (exists tags, get c (js "tags") = Ok tags /\
                (truthy tags = true -> exists l, tags = VStr l)).
Proof.
  split.
  - intros [u H]. destruct (convertShopifyCustomer_key _ _ H) as (key & K & _).
    split; [eauto|]. unfold convertShopifyCustomer in H. inv_bind H.
    split.
    + match goal with
      | G : get c (js "total_spent") = Ok ?ts, P : parseFloat (js_or ?ts zero) = Ok _ |- _ =>
          exists ts; unfold parseFloat in P; apply bind_Ok in P as (t & T & _); eauto
      end.
    + match goal with
      | G : get c (js "tags") = Ok ?tags,
        S : (if truthy ?tags then _ else _) = Ok _ |- _ =>
          exists tags; split; [exact G|]; intros T; rewrite T in S;
          destruct tags; try discriminate; eauto
      end.
  - intros ((key & K) & (ts & t & Gts & Tts) & (tags & Gtags & Htags)).
    apply external_id_Ok in K as (id & Gid & Nid & Tid).
    pose proof (get_Ok_nullish _ _ _ Gid) as Nc.
    unfold convertShopifyCustomer.
    get_steps Nc.
    unfold call_toString. rewrite Nid, Tid; ret.
    get_steps Nc.
    unfold parseFloat. rewrite Tts; ret.
    get_steps Nc.
    destruct (truthy tags) eqn:T.
    + destruct (Htags eq_refl) as [l ->]. unfold call_split.
      ret. get_steps Nc. eauto.
    + ret. get_steps Nc. eauto.
Qed.

(** X13.  A product payload that has an identifier but no variants, no
    image list and no tags is translated without an exception, to a record
    with price and compare-at price 0, out of stock with quantity 0, and
    with empty lists of tags and variants. *)
Theorem minimal_product_translates (p : value) (key : jsstring) :
  external_id p = Ok key ->
  missing p "variants" -> missing p "images" -> missing p "tags" ->
  exists rec,
    convertShopifyProduct p = Ok rec /\
    field "shopifyId" rec = Some (FVal (VStr key)) /\
    field "price" rec = Some (FVal (VNum (Fin 0 0))) /\
    field "compareAtPrice" rec = Some (FVal (VNum (Fin 0 0))) /\
    field "inStock" rec = Some (FVal (VBool false)) /\
    field "stockQuantity" rec = Some (FVal (VNum (Fin 0 0))) /\
    field "tags" rec = Some (FVal (VArr [])) /\
    field "variants" rec = Some (FVal (VArr [])) /\
    field "isNew" rec = Some (FVal (VBool false)) /\
    field "isFeatured" rec = Some (FVal (VBool false)).
Proof.
  intros K (vs & Gvs & Nvs) (imgs & Gimgs & Nimgs) (tags & Gtags & Ntags).
  apply external_id_Ok in K as (id & Gid & Nid & Tid).
  pose proof (get_Ok_nullish _ _ _ Gid) as Np.
  destruct (get_Ok p (js "image") Np) as [img Gimg].
  assert (Himg : exists src, opt img (fun i => get i (js "src")) = Ok src).
  { unfold opt. destruct (nullish img) eqn:N; [eauto | apply get_Ok, N]. }
  destruct Himg as [src Hsrc].
  assert (C : convertShopifyProduct p = Ok (translated p) /\
              exists title vendor ptype body created updated,
              translated p =
                [(js "shopifyId", FVal (VStr key)); (js "name", FVal title);
                 (js "brand", FVal vendor); (js "category", FVal ptype);
                 (js "price", FVal (VNum (Fin 0 0)));
                 (js "compareAtPrice", FVal (VNum (Fin 0 0)));
                 (js "description", FVal body);
                 (js "imageUrl", FVal (js_or src (VStr placeholder)));
                 (js "images", FVal (VArr []));
                 (js "inStock", FVal (VBool false));
                 (js "stockQuantity", FVal (VNum (Fin 0 0)));
                 (js "sku", FVal VUndefined); (js "barcode", FVal VUndefined);
                 (js "tags", FVal (VArr [])); (js "variants", FVal (VArr []));
                 (js "isNew", FVal (VBool false));
                 (js "isFeatured", FVal (VBool false));
                 (js "dateAdded", FVal created); (js "lastUpdated", FVal updated)]).
  { unfold translated, convertShopifyProduct, main_variant.
    rewrite Gvs; ret. rewrite !(opt_nullish _ _ Nvs); ret.
    rewrite Gimgs; ret. rewrite !(opt_nullish _ _ Nimgs); ret.
    unfold or_else. rewrite Gimg; ret. rewrite Hsrc; ret. cbn [truthy]; ret.
    rewrite Gid; ret. unfold call_toString. rewrite Nid, Tid; ret.
    change (js_or VUndefined (VObj [])) with (VObj []).
    repeat match goal with
    | |- context [get (VObj []) ?k] =>
        change (get (VObj []) k) with (@Ok value VUndefined)
    end.
    destruct (get_Ok p (js "title") Np) as [title ->].
    destruct (get_Ok p (js "vendor") Np) as [vendor ->].
    destruct (get_Ok p (js "product_type") Np) as [ptype ->].
    destruct (get_Ok p (js "body_html") Np) as [body ->].
    destruct (get_Ok p (js "created_at") Np) as [created ->].
    destruct (get_Ok p (js "updated_at") Np) as [updated ->].
    rewrite Gtags.
    repeat first
      [ progress ret
      | progress change (parseFloat (js_or VUndefined zero)) with (@Ok number (Fin 0 0))
      | progress change (js_gt VUndefined zero) with (@Ok bool false)
      | rewrite (nullish_falsy _ Ntags)
      | rewrite (opt_nullish _ _ Nvs)
      | rewrite (opt_nullish _ _ Ntags) ].
    ret. split; [reflexivity|]. eexists _, _, _, _, _, _. reflexivity. }
  destruct C as (C & title & vendor & ptype & body & created & updated & R).
  exists (translated p). split; [exact C|]. rewrite R. repeat split.
Qed.

(** ** The sync routes *)

Lemma handleProductUpdate_frame (p : value) (s s1 : db) :
  handleProductUpdate store_rejects p s = Ok s1 ->
  customers s1 = customers s /\ orders s1 = orders s /\
  forall key, present key (products s) -> present key (products s1).
Proof.
  intros H. apply handleProductUpdate_Ok in H as (u & key & c' & r & C & K & F & ->).
  destruct (convertShopifyProduct_key _ _ C) as (key' & K' & W).
  assert (key' = key) as -> by congruence.
  split; [reflexivity|]. split; [reflexivity|]. simpl.
  exact (proj2 (findOneAndUpdate_present store_rejects _ _ _ _ _ W F)).
Qed.

Lemma sync_loop_frame (items : list value) :
  forall (s : db) (synced errors : nat),
  let s' := (sync_loop store_rejects items s synced errors).1 in
  customers s' = customers s /\ orders s' = orders s.
Proof.
  induction items as [|p rest IH]; intros s synced errors; simpl; [auto|].
  destruct (handleProductUpdate store_rejects p s) as [s1|e] eqn:H.
  - apply handleProductUpdate_frame in H as (Hc & Ho & _).
    rewrite <- Hc, <- Ho. apply IH.
  - destruct (log_id p); [apply IH | auto].
Qed.

(** X14.  The product sync counts every item once and never removes a
    product: when the identifier of every fetched item can be written to
    the log, the route answers 200 with [synced] the number of items whose
    translation and upsert do not throw, [errors] the number of the others
    and [total] their sum; the products that were in the store are still
    in it, the items that did not throw are in it, and the customers and
    the orders are untouched. *)
Theorem sync_products_counts (items : list value) (s : db) :
  (forall p, p ∈ items -> log_id p = Ok tt) ->
  exists s',
    sync_products_route store_rejects (Ok items) s =
      ({| status := 200;
          sent := Json (sync_report
                          (count (fun p => negb (try_throws store_rejects p)) items)
                          (count (try_throws store_rejects) items)
                          (length items)) |}, s') /\
    (count (fun p => negb (try_throws store_rejects p)) items
     + count (try_throws store_rejects) items = length items)%nat /\
    (forall key, present key (products s) -> present key (products s')) /\
    (forall p, p ∈ items -> try_throws store_rejects p = false ->
       exists key, external_id p = Ok key /\ present key (products s')) /\
    customers s' = customers s /\ orders s' = orders s.
Proof.
  intros Hlog.
  destruct (sync_loop_spec store_rejects items s 0 0) as (s' & L & Hkeep & Hin);
    [auto|].
  pose proof (sync_loop_frame items s 0 0) as F. rewrite L in F. simpl in F.
  exists s'. unfold sync_products_route. rewrite L. simpl.
  repeat split; try tauto; try assumption. apply count_negb.
Qed.

(** A handler of the full sync throws exactly when its [try] block does. *)
Lemma handleProductUpdate_outcome (p : value) (s : db) :
  match handleProductUpdate store_rejects p s with
  | Ok _ => try_throws store_rejects p = false
  | Throw _ => try_throws store_rejects p = true
  end.
Proof.
  destruct (try_throws store_rejects p) eqn:T.
  - destruct (handleProductUpdate_throws store_rejects p s T) as [e ->]. reflexivity.
  - destruct (handleProductUpdate_syncs store_rejects p s T) as (s1 & key & -> & _).
    reflexivity.
Qed.

Lemma count_loop_products (items : list value) :
  forall (i : nat) (s : db) (synced errors : nat),
  exists s',
    count_loop (fun _ => handleProductUpdate store_rejects) i items s synced errors
    = (s', ((synced + count (fun p => negb (try_throws store_rejects p)) items)%nat,
            (errors + count (try_throws store_rejects) items)%nat)) /\
    customers s' = customers s /\ orders s' = orders s /\
    (forall key, present key (products s) -> present key (products s')) /\
    (forall p, p ∈ items -> try_throws store_rejects p = false ->
       exists key, external_id p = Ok key /\ present key (products s')).
Proof.
  induction items as [|p rest IH]; intros i s synced errors; simpl.
  - exists s. rewrite !Nat.add_0_r. repeat split; auto. intros p Hp. inversion Hp.
  - pose proof (handleProductUpdate_outcome p s) as O.
    destruct (handleProductUpdate store_rejects p s) as [s1|e] eqn:H; rewrite O; simpl.
    + destruct (handleProductUpdate_syncs store_rejects p s O)
        as (s1' & key & H' & K & P & _).
      assert (s1' = s1) as -> by congruence.
      apply handleProductUpdate_frame in H as (Hc & Ho & Hk).
      destruct (IH (S i) s1 (S synced) errors) as (s' & -> & Hc' & Ho' & Hk' & Hin).
      exists s'. split; [f_equal; f_equal; lia|].
      repeat split; try congruence; auto.
      intros q Hq Tq. apply elem_of_cons in Hq as [-> | Hq]; eauto.
    + destruct (IH (S i) s synced (S errors)) as (s' & -> & Hc' & Ho' & Hk' & Hin).
      exists s'. split; [f_equal; f_equal; lia|].
      repeat split; auto.
      intros q Hq Tq. apply elem_of_cons in Hq as [-> | Hq]; [congruence | auto].
Qed.

(** The counters of a loop of the full sync add up, and the loop keeps
    what its handler keeps. *)
Lemma count_loop_total {A} (proj : db -> A) (handle : nat -> value -> db -> result db)
    (items : list value) :
  (forall i x s s1, handle i x s = Ok s1 -> proj s1 = proj s) ->
  forall (i : nat) (s : db) (synced errors : nat),
  let r := count_loop handle i items s synced errors in
  (r.2.1 + r.2.2 = synced + errors + length items)%nat /\ proj r.1 = proj s.
Proof.
  intros Hp. induction items as [|x rest IH]; intros i s synced errors; simpl.
  - split; [lia | reflexivity].
  - destruct (handle i x s) as [s1|e] eqn:H.
    + destruct (IH (S i) s1 (S synced) errors) as [-> ->].
      split; [lia | eauto].
    + destruct (IH (S i) s synced (S errors)) as [-> ->].
      split; [lia | reflexivity].
Qed.

Lemma sync_stage_total {A} (proj : db -> A) (handle : nat -> value -> db -> result db)
    (fetched : result (list value)) (s : db) :
  (forall i x s s1, handle i x s = Ok s1 -> proj s1 = proj s) ->
  tallied (sync_stage handle fetched s).2 fetched /\
  proj (sync_stage handle fetched s).1 = proj s.
Proof.
  intros Hp. unfold sync_stage, tallied. destruct fetched as [items|e]; simpl; [|auto].
  destruct (count_loop_total proj handle items Hp 0 s 0 0) as [T P].
  destruct (count_loop handle 0 items s 0 0) as [s' [synced errors]].
  simpl in *. auto.
Qed.

(** X15.  The full sync always answers 200, and an item never ends it: for
    each kind of record the counters [synced] and [errors] add up to
    [total], the number of items fetched (zero when the fetch threw); for
    the products, [errors] is the number of items whose translation or
    upsert throws, every other fetched product is in the store afterwards,
    and no product that was in the store is removed. *)
Theorem sync_all_counts (fp fc fo : result (list value)) (s : db) :
  exists s' p c o,
    sync_all_route store_rejects clock fp fc fo s
      = ({| status := 200; sent := Json (full_report p c o) |}, s') /\
    tallied p fp /\ tallied c fc /\ tallied o fo /\
    (forall items, fp = Ok items ->
       t_errors p = count (try_throws store_rejects) items /\
       forall x, x ∈ items -> try_throws store_rejects x = false ->
         exists key, external_id x = Ok key /\ present key (products s')) /\
    (forall key, present key (products s) -> present key (products s')).
Proof.
  unfold sync_all_route.
  assert (P : exists s1 p,
    sync_stage (fun _ => handleProductUpdate store_rejects) fp s = (s1, p) /\
    tallied p fp /\
    (forall items, fp = Ok items ->
       t_errors p = count (try_throws store_rejects) items /\
       forall x, x ∈ items -> try_throws store_rejects x = false ->
         exists key, external_id x = Ok key /\ present key (products s1)) /\
    (forall key, present key (products s) -> present key (products s1))).
  { unfold sync_stage, tallied. destruct fp as [items|e].
    - destruct (count_loop_products items 0 s 0 0) as (s1 & -> & _ & _ & Hk & Hin).
      eexists _, _. split; [reflexivity|]. simpl.
      pose proof (count_negb (try_throws store_rejects) items).
      split; [split; [lia | reflexivity]|]. split; [|exact Hk].
      intros items' [= <-]. split; [reflexivity | exact Hin].
    - eexists _, _. split; [reflexivity|]. simpl.
      split; [split; reflexivity|]. split; [discriminate | auto]. }
  destruct P as (s1 & p & -> & Tp & Hin & Hk).
  destruct (sync_stage_total products
              (fun _ => handleCustomerUpdate store_rejects) fc s1) as [Tc Pc].
  { intros i x s0 s2 H.
    apply handleCustomerUpdate_Ok in H as (? & ? & ? & ? & _ & _ & _ & ->).
    reflexivity. }
  destruct (sync_stage _ fc s1) as [s2 c]. simpl in Tc, Pc.
  destruct (sync_stage_total products
              (fun i => handleOrderUpdate store_rejects (clock i)) fo s2) as [To Po].
  { intros i x s0 s3 H.
    apply handleOrderUpdate_Ok in H as (? & ? & ? & ? & _ & _ & _ & ->).
    reflexivity. }
  destruct (sync_stage _ fo s2) as [s3 o]. simpl in To, Po.
  exists s3, p, c, o. rewrite Po, Pc.
  split; [reflexivity|]. split; [exact Tp|]. split; [exact Tc|].
  split; [exact To|]. split; [exact Hin | exact Hk].
Qed.

(** ** Deliveries with a valid signature *)


(** ** The paginated fetch *)

(** X17.  [getAllProducts] never asks for a second page: whatever the
    platform answers, it makes exactly one request, for the first 250
    products.  It resolves to the products of that answer when the parsed
    body has no [headers] property, and throws when it has one, or when
    the request or the read of [products] throws. *)
Theorem getAllProducts_single_request (turns : nat) :
  let first := request_products 0%nat (VObj [(js "limit", VNum (Fin 250 0))]) in
  exists r,
    getAllProducts request_products page_info_of (S turns) = Some (r, 1%nat) /\
    (forall e, first = Throw e -> r = Throw e) /\
    (forall response products,
       first = Ok response -> get response (js "products") = Ok products ->
       (missing response "headers" ->
          r = Ok (concat_value [] (js_or products (VArr [])))) /\
       (forall h, get response (js "headers") = Ok h -> nullish h = false ->
          r = Throw TypeError)).
Proof.
  unfold getAllProducts. cbn [getAllProducts_loop].
  unfold getAllProducts_turn. cbn [truthy].
  destruct (request_products 0%nat _) as [response|e]; simpl.
  - destruct (get response (js "products")) as [products|e] eqn:P; simpl.
    + destruct (get response (js "headers")) as [h|e] eqn:H; simpl.
      * unfold opt, call_get. destruct (nullish h) eqn:N; simpl.
        -- eexists. split; [reflexivity|]. split; [discriminate|].
           intros r0 p0 [= <-] G. rewrite P in G. injection G as <-.
           split; [reflexivity|].
           intros h' G' N'. rewrite H in G'. injection G' as <-. congruence.
        -- eexists. split; [reflexivity|]. split; [discriminate|].
           intros r0 p0 [= <-] G. split; [|reflexivity].
           intros (h' & G' & N'). rewrite H in G'. injection G' as <-. congruence.
      * apply get_Throw in H. destruct response; discriminate.
    + eexists. split; [reflexivity|]. split; [discriminate|].
      intros r0 p0 [= <-] G. rewrite P in G. discriminate.
  - eexists. split; [reflexivity|]. split; [intros ? [= <-]; reflexivity|].
    discriminate.
Qed.

(** ** The Lightspeed item handler *)




(** ** The customer and order sync routes *)

Lemma sync_loop_of_total {A} (proj : db -> A)
    (handle : nat -> value -> db -> result db) (items : list value) :
  (forall i x s s1, handle i x s = Ok s1 -> proj s1 = proj s) ->
  (forall x, x ∈ items -> log_id x = Ok tt) ->
  forall (i : nat) (s : db) (synced errors : nat),
  exists s' a b,
    sync_loop_of handle i items s synced errors = (s', Ok (a, b)) /\
    (a + b = synced + errors + length items)%nat /\ proj s' = proj s.
Proof.
  intros Hp. induction items as [|x rest IH]; intros Hlog i s synced errors; simpl.
  - exists s, synced, errors. repeat split. lia.
  - assert (Hrest : forall y, y ∈ rest -> log_id y = Ok tt)
      by (intros y Hy; apply Hlog; right; exact Hy).
    destruct (handle i x s) as [s1|e] eqn:H.
    + destruct (IH Hrest (S i) s1 (S synced) errors) as (s' & a & b & -> & T & P).
      exists s', a, b. repeat split; [lia|]. rewrite P. eauto.
    + rewrite (Hlog x) by left.
      destruct (IH Hrest (S i) s synced (S errors)) as (s' & a & b & -> & T & P).
      exists s', a, b. repeat split; [lia | exact P].
Qed.

(** X19.  The customer sync and the order sync count every item once: when
    the identifier of every fetched item can be written to the log, each
    route answers 200 with counters [synced] and [errors] that add up to
    [total], the number of items fetched; the customer sync leaves the
    products and the orders untouched, the order sync the products and the
    customers. *)
Theorem sync_customers_orders_counts (items : list value) (s : db) :
  (forall x, x ∈ items -> log_id x = Ok tt) ->
  (exists s' synced errors,
     sync_customers_route store_rejects (Ok items) s =
       ({| status := 200;
           sent := Json (sync_report_of "customers" synced errors (length items)) |},
        s') /\
     (synced + errors = length items)%nat /\
     products s' = products s /\ orders s' = orders s) /\
  (exists s' synced errors,
     sync_orders_route store_rejects clock (Ok items) s =
       ({| status := 200;
           sent := Json (sync_report_of "orders" synced errors (length items)) |},
        s') /\
     (synced + errors = length items)%nat /\
     products s' = products s /\ customers s' = customers s).
Proof.
  intros Hlog. split.
  - destruct (sync_loop_of_total (fun s => (products s, orders s))
                (fun _ => handleCustomerUpdate store_rejects) items)
      with (i := 0%nat) (s := s) (synced := 0%nat) (errors := 0%nat)
      as (s' & a & b & L & T & P); [|exact Hlog|].
    { intros i x s0 s1 H.
      apply handleCustomerUpdate_Ok in H as (? & ? & ? & ? & _ & _ & _ & ->).
      reflexivity. }
    exists s', a, b. unfold sync_customers_route, sync_route_of. rewrite L.
    injection P as P1 P2. auto.
  - destruct (sync_loop_of_total (fun s => (products s, customers s))
                (fun i => handleOrderUpdate store_rejects (clock i)) items)
      with (i := 0%nat) (s := s) (synced := 0%nat) (errors := 0%nat)
      as (s' & a & b & L & T & P); [|exact Hlog|].
    { intros i x s0 s1 H.
      apply handleOrderUpdate_Ok in H as (? & ? & ? & ? & _ & _ & _ & ->).
      reflexivity. }
    exists s', a, b. unfold sync_orders_route, sync_route_of. rewrite L.
    injection P as P1 P2. auto.
Qed.

(** ** The tags *)

(** X20.  The tag list of a translated product is the tag text of the
    payload, cut at every [", "]: when the payload's [tags] is a non-empty
    string, the record's [tags] is an array of strings, and joining them
    with [", "] gives the text back. *)
Theorem tags_round_trip (p : value) (rec : record) (t : jsstring) :
  convertShopifyProduct p = Ok rec ->
  get p (js "tags") = Ok (VStr t) -> t <> [] ->
  exists l : list jsstring,
    field "tags" rec = Some (FVal (VArr (VStr <$> l))) /\
    str_join (js ", ") l = t.
Proof.
  intros H G Ht. unfold convertShopifyProduct in H. rewrite G in H.
  inv_bind H. injection H as <-.
  repeat match goal with E : Ok _ = Ok _ |- _ => injection E as <- end.
  match goal with
  | S : (if truthy (VStr t) then _ else _) = Ok _ |- _ =>
      replace (truthy (VStr t)) with true in S by (destruct t; [congruence | reflexivity]);
      injection S as <-
  end.
  exists (str_split (js ", ") t). split; [reflexivity|].
  unfold str_split.
  rewrite (str_join_split (js ", ") (length t)) by (discriminate || lia).
  reflexivity.
Qed.

End Further.

(** * Concrete runs *)

(** The end-to-end example of the specification: the translation of the
    "Mop" payload. *)
Example mop_translated :
  exists rec, convertShopifyProduct mop = Ok rec /\
    field "shopifyId" rec = Some (FVal (VStr (js "123"))) /\
    field "name" rec = Some (FVal (VStr (js "Mop"))) /\
    field "brand" rec = Some (FVal (VStr (js "Acme"))) /\
    field "price" rec = Some (FVal (VNum (Fin 999 (-2)))) /\
    field "inStock" rec = Some (FVal (VBool true)) /\
    field "stockQuantity" rec = Some (FVal (VNum (Fin 5 0))).
Proof. eexists. split; [vm_compute; reflexivity|]. repeat split. Qed.

(** The end-to-end example of the specification: a delivery of the "Mop"
    payload with a valid signature is acknowledged, and the product is in
    the store afterwards. *)
Example mop_delivered :
  let run := webhook_delivery accepts_all toy_hmac parse_mop configured 0
               mop_request empty_db in
  run.1 = acknowledged /\
  match findOne (by_shopifyId (js "123")) (products run.2) with
  | Some d =>
      d !! js "name" = Some (FVal (VStr (js "Mop"))) /\
      d !! js "brand" = Some (FVal (VStr (js "Acme"))) /\
      d !! js "price" = Some (FVal (VNum (Fin 999 (-2)))) /\
      d !! js "inStock" = Some (FVal (VBool true)) /\
      d !! js "stockQuantity" = Some (FVal (VNum (Fin 5 0)))
  | None => False
  end.
Proof. vm_compute. repeat split. Qed.

(** The limit of the isolation of failures: an item for which the log line
    of the [catch] cannot be evaluated ([null], here) ends the run, with a
    500 and without the items after it. *)
Example null_item_ends_sync :
  let run := sync_products_route accepts_all (Ok [mop; VNull; brush]) empty_db in
  run.1 = server_error TypeError /\
  present (js "123") (products run.2) /\
  ~ present (js "125") (products run.2).
Proof.
  unfold present. split; [vm_compute; reflexivity|]. split.
  - apply findOne_Some_iff. eexists. split; [left|]; vm_compute; reflexivity.
  - rewrite findOne_Some_iff. intros (d & Hd & M).
    apply list_elem_of_singleton in Hd as ->. vm_compute in M. discriminate.
Qed.

Lemma default_substitution_witness :
  (missing bare "vendor" /\ missing bare "product_type" /\ no_images bare /\
   convertShopifyProduct bare = Ok (translated bare)) /\
  field "brand" (translated bare) = Some (FVal (VStr (js "Unknown"))) /\
  field "category" (translated bare) = Some (FVal (VStr (js "Uncategorized"))) /\
  field "imageUrl" (translated bare) = Some (FVal (VStr placeholder)) /\
  field "images" (translated bare) = Some (FVal (VArr [])).
Proof.
  assert (V : missing bare "vendor") by (eexists; split; reflexivity).
  assert (T : missing bare "product_type") by (eexists; split; reflexivity).
  assert (I : no_images bare).
  { split; [eexists; split; reflexivity|].
    eexists; split; [reflexivity | left; reflexivity]. }
  assert (C : convertShopifyProduct bare = Ok (translated bare)) by reflexivity.
  split; [auto|]. exact (default_substitution bare (translated bare) V T I C).
Defined.

(** C6 as stated fails: a price string in which no number can be read is
    translated to NaN, not to 0, in the record and in its variant list. *)
Lemma unparsable_price_is_nan :
  parseFloat_string (js "abc") = NaN /\
  raw_numeric broom "price" = Ok (VStr (js "abc")) /\
  exists rec,
    convertShopifyProduct broom = Ok rec /\
    field "price" rec = Some (FVal (VNum NaN)) /\
    field "price" rec <> Some (FVal (VNum (Fin 0 0))) /\
    field "variants" rec =
      Some (FVal (VArr [VObj [(js "id", VUndefined); (js "title", VUndefined);
                              (js "price", VNum NaN); (js "sku", VUndefined);
                              (js "inventoryQuantity", VNum (Fin 2 0))]])).
Proof.
  split; [reflexivity|]. split; [reflexivity|].
  eexists. split; [vm_compute; reflexivity|].
  split; [reflexivity|]. split; [discriminate | reflexivity].
Qed.

Lemma numeric_fallback_witness :
  convertShopifyProduct broom = Ok (translated broom) /\
  exists (vp vc : value) (np nc : number),
    raw_numeric broom "price" = Ok vp /\
    raw_numeric broom "compare_at_price" = Ok vc /\
    field "price" (translated broom) = Some (FVal (VNum np)) /\
    field "compareAtPrice" (translated broom) = Some (FVal (VNum nc)) /\
    (truthy vp = false -> np = Fin 0 0) /\
    (forall s, vp = VStr s -> s <> [] -> parseFloat_string s = NaN -> np = NaN) /\
    (truthy vc = false -> nc = Fin 0 0) /\
    (forall s, vc = VStr s -> s <> [] -> parseFloat_string s = NaN -> nc = NaN).
Proof.
  assert (C : convertShopifyProduct broom = Ok (translated broom)) by reflexivity.
  split; [exact C|]. exact (numeric_fallback broom (translated broom) C).
Defined.

(** C1 as stated fails: two bodies that differ in one byte of an unpaired
    surrogate have the same UTF-8 encoding, so each is accepted under the
    signature of the other, whatever the keyed hash is.  The same holds at
    the endpoint for two raw bodies that differ in one ill-formed byte:
    both are decoded to U+FFFD. *)
Lemma mutated_body_accepted :
  single_byte_mutation [55296%N] [55297%N] /\
  utf8_encode [55297%N] = utf8_encode [55296%N] /\
  (forall hmac_sha256,
     verifyWebhook hmac_sha256 configured [55297%N]
       (Some (signature hmac_sha256 (js "whsec") [55296%N])) = Ok true) /\
  utf8_decode [xfe] = utf8_decode [xff] /\
  (forall hmac_sha256,
     verifyWebhook hmac_sha256 configured (utf8_decode [xfe])
       (Some (signature hmac_sha256 (js "whsec") (utf8_decode [xff]))) = Ok true) /\
  ~ (exists hmac_sha256, forall B B',
       single_byte_mutation B B' ->
       verifyWebhook hmac_sha256 configured B'
         (Some (signature hmac_sha256 (js "whsec") B)) = Ok false).
Proof.
  assert (M : single_byte_mutation [55296%N] [55297%N]).
  { exists 0%nat, 55296%N, 55297%N.
    repeat split; [discriminate | left; reflexivity]. }
  assert (A : forall hmac_sha256,
     verifyWebhook hmac_sha256 configured [55297%N]
       (Some (signature hmac_sha256 (js "whsec") [55296%N])) = Ok true).
  { intros h. unfold verifyWebhook; simpl.
    apply f_equal, bool_decide_eq_true_2. reflexivity. }
  repeat split; [exact M | exact A | |].
  - intros h. unfold verifyWebhook; simpl.
    apply f_equal, bool_decide_eq_true_2. reflexivity.
  - intros [h H]. specialize (H _ _ M). rewrite A in H. discriminate.
Qed.

Lemma signature_check_witness :
  webhook_secret configured = Some (js "whsec") /\
  verifyWebhook toy_hmac configured (js "{}")
    (Some (signature toy_hmac (js "whsec") (js "{}"))) = Ok true /\
  verifyWebhook toy_hmac configured (js "{ }")
    (Some (signature toy_hmac (js "whsec") (js "{}")))
    = Ok (bool_decide (signature toy_hmac (js "whsec") (js "{ }")
                       = signature toy_hmac (js "whsec") (js "{}"))) /\
  (utf8_encode (js "{ }") = utf8_encode (js "{}") ->
   verifyWebhook toy_hmac configured (js "{ }")
     (Some (signature toy_hmac (js "whsec") (js "{}"))) = Ok true).
Proof.
  split; [reflexivity|].
  exact (signature_check toy_hmac configured (js "whsec") (js "{}") (js "{ }") eq_refl).
Defined.



Lemma stock_consistency_witness :
  upsert_by accepts_all no_item (Shopify mop) empty_db
    = Ok (after (handleProductUpdate accepts_all mop empty_db) empty_db,
          findOne (by_shopifyId (js "123"))
            (products (after (handleProductUpdate accepts_all mop empty_db) empty_db))) /\
  exists d,
    findOne (by_shopifyId (js "123"))
      (products (after (handleProductUpdate accepts_all mop empty_db) empty_db))
      = Some d /\
    d ∈ products (after (handleProductUpdate accepts_all mop empty_db) empty_db) /\
    stock_consistent d.
Proof.
  assert (H : upsert_by accepts_all no_item (Shopify mop) empty_db
    = Ok (after (handleProductUpdate accepts_all mop empty_db) empty_db,
          findOne (by_shopifyId (js "123"))
            (products (after (handleProductUpdate accepts_all mop empty_db) empty_db))))
    by reflexivity.
  split; [exact H|].
  exact (stock_consistency accepts_all no_item (Shopify mop) empty_db _ _ H).
Defined.


Lemma missing_secret_throws_witness :
  (SHOPIFY_WEBHOOK_SECRET unconfigured = None /\
   SHOPIFY_API_SECRET unconfigured = None) /\
  (forall body hmacHeader,
     verifyWebhook toy_hmac unconfigured body hmacHeader = Throw TypeError) /\
  (forall now req s,
     webhook_delivery accepts_all toy_hmac toy_parse unconfigured now req s
       = (server_error TypeError, s)) /\
  status (server_error TypeError) = 500 /\
  server_error TypeError <> invalid_signature.
Proof.
  split; [split; reflexivity|].
  exact (missing_secret_throws accepts_all toy_hmac toy_parse
           unconfigured eq_refl eq_refl).
Defined.



Lemma handleProductUpdate_unique_witness :
  handleProductUpdate accepts_all mop store_with_mop = Ok store_with_mop /\
  (exists key, external_id mop = Ok key /\
     length (products store_with_mop) =
       (length (products store_with_mop)
        + match findOne (by_shopifyId key) (products store_with_mop) with
          | Some _ => 0 | None => 1 end)%nat) /\
  (unique_keys (products store_with_mop) -> unique_keys (products store_with_mop)).
Proof.
  assert (H : handleProductUpdate accepts_all mop store_with_mop = Ok store_with_mop)
    by (vm_compute; reflexivity).
  split; [exact H|].
  exact (handleProductUpdate_unique accepts_all mop store_with_mop store_with_mop H).
Defined.

Lemma handleProductDelete_lookup_witness :
  handleProductDelete mop store_with_mop = Ok empty_db /\
  exists key,
    external_id mop = Ok key /\
    (forall key', key' <> key ->
       findOne (by_shopifyId key') (products empty_db)
       = findOne (by_shopifyId key') (products store_with_mop)) /\
    (unique_keys (products store_with_mop) ->
       findOne (by_shopifyId key) (products empty_db) = None /\
       unique_keys (products empty_db)) /\
    (findOne (by_shopifyId key) (products store_with_mop) = None ->
       empty_db = store_with_mop) /\
    customers empty_db = customers store_with_mop /\
    orders empty_db = orders store_with_mop.
Proof.
  assert (H : handleProductDelete mop store_with_mop = Ok empty_db)
    by (vm_compute; reflexivity).
  split; [exact H|].
  exact (handleProductDelete_lookup mop store_with_mop empty_db H).
Defined.

Lemma upsert_then_delete_witness :
  (external_id mop = Ok (js "123") /\
   findOne (by_shopifyId (js "123")) (products empty_db) = None /\
   handleProductUpdate accepts_all mop empty_db = Ok store_with_mop) /\
  handleProductDelete mop store_with_mop = Ok empty_db.
Proof.
  assert (K : external_id mop = Ok (js "123")) by reflexivity.
  assert (A : findOne (by_shopifyId (js "123")) (products empty_db) = None)
    by reflexivity.
  assert (H : handleProductUpdate accepts_all mop empty_db = Ok store_with_mop)
    by reflexivity.
  split; [auto|].
  exact (upsert_then_delete accepts_all mop empty_db store_with_mop (js "123") K A H).
Defined.

Lemma unregistered_topic_ignored_witness :
  registered (Some (js "orders/paid")) = false /\
  handleWebhook accepts_all 0 (Some (js "orders/paid")) paid_900 empty_db
    = (empty_db, true).
Proof.
  assert (R : registered (Some (js "orders/paid")) = false) by reflexivity.
  split; [exact R|].
  exact (unregistered_topic_ignored accepts_all 0 (Some (js "orders/paid"))
           paid_900 empty_db R).
Defined.

Lemma delivery_without_id_rejected_witness :
  (registered (Some (js "products/update")) = true /\
   external_id anonymous = Throw TypeError) /\
  handleWebhook accepts_all 0 (Some (js "products/update")) anonymous empty_db
    = (empty_db, false).
Proof.
  assert (R : registered (Some (js "products/update")) = true) by reflexivity.
  assert (K : external_id anonymous = Throw TypeError) by reflexivity.
  split; [auto|].
  exact (delivery_without_id_rejected accepts_all 0 (Some (js "products/update"))
           anonymous empty_db TypeError R K).
Defined.





Lemma minimal_product_translates_witness :
  (external_id bare = Ok (js "7") /\
   missing bare "variants" /\ missing bare "images" /\ missing bare "tags") /\
  exists rec,
    convertShopifyProduct bare = Ok rec /\
    field "shopifyId" rec = Some (FVal (VStr (js "7"))) /\
    field "price" rec = Some (FVal (VNum (Fin 0 0))) /\
    field "compareAtPrice" rec = Some (FVal (VNum (Fin 0 0))) /\
    field "inStock" rec = Some (FVal (VBool false)) /\
    field "stockQuantity" rec = Some (FVal (VNum (Fin 0 0))) /\
    field "tags" rec = Some (FVal (VArr [])) /\
    field "variants" rec = Some (FVal (VArr [])) /\
    field "isNew" rec = Some (FVal (VBool false)) /\
    field "isFeatured" rec = Some (FVal (VBool false)).
Proof.
  assert (K : external_id bare = Ok (js "7")) by reflexivity.
  assert (V : missing bare "variants") by (eexists; split; reflexivity).
  assert (I : missing bare "images") by (eexists; split; reflexivity).
  assert (T : missing bare "tags") by (eexists; split; reflexivity).
  split; [auto|].
  exact (minimal_product_translates bare (js "7") K V I T).
Defined.

Lemma sync_products_counts_witness :
  (forall p, p ∈ [mop; broom; brush] -> log_id p = Ok tt) /\
  exists s',
    sync_products_route rejects_nan_price (Ok [mop; broom; brush]) empty_db =
      ({| status := 200;
          sent := Json (sync_report
                          (count (fun p => negb (try_throws rejects_nan_price p))
                                 [mop; broom; brush])
                          (count (try_throws rejects_nan_price) [mop; broom; brush])
                          (length [mop; broom; brush])) |}, s') /\
    (count (fun p => negb (try_throws rejects_nan_price p)) [mop; broom; brush]
     + count (try_throws rejects_nan_price) [mop; broom; brush]
     = length [mop; broom; brush])%nat /\
    (forall key, present key (products empty_db) -> present key (products s')) /\
    (forall p, p ∈ [mop; broom; brush] -> try_throws rejects_nan_price p = false ->
       exists key, external_id p = Ok key /\ present key (products s')) /\
    customers s' = customers empty_db /\ orders s' = orders empty_db.
Proof.
  assert (L : forall p, p ∈ [mop; broom; brush] -> log_id p = Ok tt).
  { intros p Hp. repeat (apply elem_of_cons in Hp as [-> | Hp]; [reflexivity|]).
    inversion Hp. }
  split; [exact L|].
  exact (sync_products_counts rejects_nan_price [mop; broom; brush] empty_db L).
Defined.



Lemma sync_customers_orders_counts_witness :
  (forall x, x ∈ [ann; paid_900] -> log_id x = Ok tt) /\
  (exists s' synced errors,
     sync_customers_route accepts_all (Ok [ann; paid_900]) empty_db =
       ({| status := 200;
           sent := Json (sync_report_of "customers" synced errors
                           (length [ann; paid_900])) |}, s') /\
     (synced + errors = length [ann; paid_900])%nat /\
     products s' = products empty_db /\ orders s' = orders empty_db) /\
  (exists s' synced errors,
     sync_orders_route accepts_all ticking (Ok [ann; paid_900]) empty_db =
       ({| status := 200;
           sent := Json (sync_report_of "orders" synced errors
                           (length [ann; paid_900])) |}, s') /\
     (synced + errors = length [ann; paid_900])%nat /\
     products s' = products empty_db /\ customers s' = customers empty_db).
Proof.
  assert (L : forall x, x ∈ [ann; paid_900] -> log_id x = Ok tt).
  { intros p Hp. repeat (apply elem_of_cons in Hp as [-> | Hp]; [reflexivity|]).
    inversion Hp. }
  split; [exact L|].
  exact (sync_customers_orders_counts accepts_all ticking [ann; paid_900] empty_db L).
Defined.

Lemma tags_round_trip_witness :
  (convertShopifyProduct tagged = Ok (translated tagged) /\
   get tagged (js "tags") = Ok (VStr (js "eco, renewable")) /\
   js "eco, renewable" <> []) /\
  exists l : list (list N),
    field "tags" (translated tagged) = Some (FVal (VArr (VStr <$> l))) /\
    str_join (js ", ") l = js "eco, renewable".
Proof.
  assert (C : convertShopifyProduct tagged = Ok (translated tagged)) by reflexivity.
  assert (G : get tagged (js "tags") = Ok (VStr (js "eco, renewable")))
    by reflexivity.
  assert (N : js "eco, renewable" <> []) by discriminate.
  split; [auto|].
  exact (tags_round_trip tagged (translated tagged) (js "eco, renewable") C G N).
Defined.
